(** * autogenstudio/database/utils.py

    A shallow embedding of the three functions of
    [samples/apps/autogen-studio/autogenstudio/database/utils.py]:
    [workflow_from_id], [run_migration] and [init_db_samples], and the
    properties of them that the specification states.

    Python values are an inductive type, dictionaries are association lists
    in insertion order, exceptions are the [Raise] outcome of a state and
    exception monad, and the collaborators the module calls (the ORM rows of
    [..datamodel], [dbmanager], alembic's [command]) are modelled next to the
    function that calls them. *)

From Stdlib Require Import List String ZArith Bool Lia Permutation Sorted.
Import ListNotations.
Local Open Scope string_scope.
Local Open Scope Z_scope.

(** ** Python values *)

Set Warnings "-register-all".

(** The values the module builds: JSON-mode dumps ([None], booleans,
    integers, strings, lists, dictionaries) and instances of model classes
    (the result of [Skill.model_validate]), given by class name and fields. *)
Inductive value : Type :=
| VNone
| VBool (b : bool)
| VInt (z : Z)
| VStr (s : string)
| VList (l : list value)
| VDict (d : list (string * value))
| VObj (cls : string) (fields : list (string * value)).

Definition dict : Type := list (string * value).

(** [bool(v)]: Python truthiness. *)
Definition truthy (v : value) : bool :=
  match v with
  | VNone => false
  | VBool b => b
  | VInt z => negb (z =? 0)
  | VStr s => negb (s =? "")%string
  | VList l => match l with [] => false | _ :: _ => true end
  | VDict d => match d with [] => false | _ :: _ => true end
  | VObj _ _ => true
  end.

(** [d.get(k)] / [d[k]]: the binding of [k], if any. *)
Fixpoint dict_get (k : string) (d : dict) : option value :=
  match d with
  | [] => None
  | (k', v) :: d' => if (k =? k')%string then Some v else dict_get k d'
  end.

(** [d[k] = v]: an existing key keeps its position, a new key goes last. *)
Fixpoint dict_set (k : string) (v : value) (d : dict) : dict :=
  match d with
  | [] => [(k, v)]
  | (k', v') :: d' =>
      if (k =? k')%string then (k, v) :: d' else (k', v') :: dict_set k v d'
  end.

Definition dict_keys (d : dict) : list string := map fst d.

Fixpoint str_mem (k : string) (ks : list string) : bool :=
  match ks with
  | [] => false
  | k' :: ks' => (k =? k')%string || str_mem k ks'
  end.

(** ** Exceptions and the monad of effectful code *)

Inductive exn : Type :=
| ValueError (msg : string)
| RuntimeError (msg : string)
| IndexError
| KeyError (key : string)
| TypeError
| AttributeError
| RecursionError
| CommandError
| AutogenerateDiffsDetected
| OtherException (name : string).

Inductive result (A : Type) : Type :=
| Ok (a : A)
| Raise (e : exn).
Arguments Ok {A} a.
Arguments Raise {A} e.

(** A computation over a state [S] that returns or raises; the state
    survives an exception, as the database and the log do. *)
Definition M (S A : Type) : Type := S -> result A * S.

Definition ret {S A} (a : A) : M S A := fun s => (Ok a, s).
Definition raise {S A} (e : exn) : M S A := fun s => (Raise e, s).
Definition bind {S A B} (m : M S A) (k : A -> M S B) : M S B :=
  fun s =>
    match m s with
    | (Ok a, s') => k a s'
    | (Raise e, s') => (Raise e, s')
    end.
(** [try: m except Exception as exc: h exc] *)
Definition try_except {S A} (m : M S A) (h : exn -> M S A) : M S A :=
  fun s =>
    match m s with
    | (Ok a, s') => (Ok a, s')
    | (Raise e, s') => h e s'
    end.
Definition gets {S A} (f : S -> A) : M S A := fun s => (Ok (f s), s).
Definition modify {S} (f : S -> S) : M S unit := fun s => (Ok tt, f s).

Declare Scope monad_scope.
Delimit Scope monad_scope with monad.
Notation "x <- m ;; k" := (bind m (fun x => k))
  (at level 61, m at next level, right associativity) : monad_scope.
Notation "m ;;; k" := (bind m (fun _ => k))
  (at level 61, right associativity) : monad_scope.
Local Open Scope monad_scope.

Fixpoint mapM {S A B} (f : A -> M S B) (l : list A) : M S (list B) :=
  match l with
  | [] => ret []
  | x :: l' => y <- f x ;; ys <- mapM f l' ;; ret (y :: ys)
  end.

Definition lift_result {S A} (r : result A) : M S A := fun s => (r, s).

(** ** The rows of [..datamodel]

    Modelled from the spec: the row classes of [..datamodel] (Model, Skill,
    Agent, Workflow, WorkflowAgentLink and the enums AgentType and
    WorkFlowType) are not under src/.  A row carries the columns that
    utils.py reads as typed fields and its remaining columns as a
    dictionary of JSON-mode values; [model_dump(mode="json")] lists them
    all, minus the excluded keys. *)

Inductive AgentType : Type := assistant | userproxy | groupchat.
Inductive WorkFlowType : Type := autonomous | sequential.

Definition AgentType_value (t : AgentType) : string :=
  match t with
  | assistant => "assistant"
  | userproxy => "userproxy"
  | groupchat => "groupchat"
  end.

Definition WorkFlowType_value (t : WorkFlowType) : string :=
  match t with
  | autonomous => "autonomous"
  | sequential => "sequential"
  end.

Definition AgentType_eqb (a b : AgentType) : bool :=
  match a, b with
  | assistant, assistant | userproxy, userproxy | groupchat, groupchat => true
  | _, _ => false
  end.

Record Model : Type := mkModel { model_id : Z; model_cols : dict }.
Record Skill : Type := mkSkill { skill_id : Z; skill_cols : dict }.
Record Agent : Type := mkAgent {
  agent_id : Z;
  agent_type : AgentType;
  agent_config : dict;
  agent_cols : dict }.
Record Workflow : Type := mkWorkflow {
  workflow_id : Z;
  workflow_name : string;
  workflow_type : WorkFlowType;
  workflow_cols : dict }.
Record WorkflowAgentLink : Type := mkWorkflowAgentLink {
  wal_workflow_id : Z;
  wal_agent_id : Z;
  wal_agent_type : string;
  wal_sequence_id : Z }.

(** [exclude=...] of [model_dump]: the listed top-level keys are dropped. *)
Definition dict_exclude (exclude : list string) (d : dict) : dict :=
  filter (fun kv => negb (str_mem (fst kv) exclude)) d.

Definition Model_model_dump (exclude : list string) (m : Model) : dict :=
  dict_exclude exclude (("id", VInt (model_id m)) :: model_cols m).

Definition Skill_model_dump (s : Skill) : dict :=
  ("id", VInt (skill_id s)) :: skill_cols s.

Definition Skill_model_validate (d : dict) : value := VObj "Skill" d.

Definition Agent_model_dump (exclude : list string) (a : Agent) : dict :=
  dict_exclude exclude
    (("id", VInt (agent_id a))
     :: ("type", VStr (AgentType_value (agent_type a)))
     :: ("config", VDict (agent_config a))
     :: agent_cols a).

Definition Workflow_model_dump (w : Workflow) : dict :=
  ("id", VInt (workflow_id w))
  :: ("name", VStr (workflow_name w))
  :: ("type", VStr (WorkFlowType_value (workflow_type w)))
  :: workflow_cols w.

Definition WorkflowAgentLink_model_dump (l : WorkflowAgentLink) : dict :=
  [ ("workflow_id", VInt (wal_workflow_id l));
    ("agent_id", VInt (wal_agent_id l));
    ("agent_type", VStr (wal_agent_type l));
    ("sequence_id", VInt (wal_sequence_id l)) ].

(** ** The database behind [dbmanager]

    Modelled from the spec: [dbmanager] (get, get_items, link, engine) and
    the ORM session are not under src/.  The database is its tables, each in
    the order in which a query returns its rows; the many-to-many
    relationships are link tables of (primary id, secondary id) pairs. *)

Record DB : Type := mkDB {
  models : list Model;
  skills : list Skill;
  agents : list Agent;
  workflows : list Workflow;
  agent_model_links : list (Z * Z);
  agent_skill_links : list (Z * Z);
  agent_links : list (Z * Z);
  workflow_agent_links : list WorkflowAgentLink }.

Definition empty_db : DB := mkDB [] [] [] [] [] [] [] [].

(** What the code can observe and change: the committed tables, the rows
    pending in the open session, and the trace of writes and log lines. *)
Inductive event : Type :=
| EvLog (level msg : string)
| EvSessionOpen
| EvAdd (table : string) (id : Z)
| EvCommit
| EvSessionClose
| EvLink (link_type : string) (primary_id secondary_id : Z)
         (agent_type : option string).

Record World : Type := mkWorld {
  db : DB;
  pending : DB;
  events : list event }.

Definition emit (e : event) : M World unit :=
  modify (fun w => mkWorld (db w) (pending w) (events w ++ [e])).

Definition logger_info (msg : string) : M World unit := emit (EvLog "INFO" msg).

(** The rows a query by primary key returns. *)
Definition agent_rows (d : DB) (agent_id' : Z) : list Agent :=
  filter (fun a => agent_id a =? agent_id') (agents d).

Definition workflow_rows (d : DB) (workflow_id' : Z) : list Workflow :=
  filter (fun r => workflow_id r =? workflow_id') (workflows d).

Definition links_of_workflow (d : DB) (workflow_id' : Z)
  : list WorkflowAgentLink :=
  filter (fun l => wal_workflow_id l =? workflow_id') (workflow_agent_links d).

(** The relationship attributes of an agent, loaded through the link
    tables: the secondary rows of the links whose primary id is the agent's. *)
Definition related {R} (links : list (Z * Z)) (rid : R -> Z) (rows : list R)
           (primary : Z) : list R :=
  flat_map (fun l => if fst l =? primary
                     then filter (fun r => rid r =? snd l) rows
                     else [])
           links.

Definition skills_of (d : DB) (a : Agent) : list Skill :=
  related (agent_skill_links d) skill_id (skills d) (agent_id a).
Definition models_of (d : DB) (a : Agent) : list Model :=
  related (agent_model_links d) model_id (models d) (agent_id a).
Definition agents_of (d : DB) (a : Agent) : list Agent :=
  related (agent_links d) agent_id (agents d) (agent_id a).

(** [dbmanager.get(Workflow, filters={"id": workflow_id}).data] *)
Definition dbmanager_get_Workflow_by_id (workflow_id' : Z)
  : M World (list Workflow) :=
  gets (fun w => workflow_rows (db w) workflow_id').

(** [dbmanager.get(Workflow).data] *)
Definition dbmanager_get_Workflow : M World (list Workflow) :=
  gets (fun w => workflows (db w)).

(** [dbmanager.get(WorkflowAgentLink, filters={"workflow_id": workflow_id}).data] *)
Definition dbmanager_get_WorkflowAgentLink (workflow_id' : Z)
  : M World (list WorkflowAgentLink) :=
  gets (fun w => links_of_workflow (db w) workflow_id').

(** [dbmanager.get_items(Agent, filters={"id": agent_id}, session).data] *)
Definition dbmanager_get_items_Agent (agent_id' : Z) : M World (list Agent) :=
  gets (fun w => agent_rows (db w) agent_id').

(** [agent.skills], [agent.models], [agent.agents] *)
Definition Agent_skills (a : Agent) : M World (list Skill) :=
  gets (fun w => skills_of (db w) a).
Definition Agent_models (a : Agent) : M World (list Model) :=
  gets (fun w => models_of (db w) a).
Definition Agent_agents (a : Agent) : M World (list Agent) :=
  gets (fun w => agents_of (db w) a).

(** ** [workflow_from_id] (utils.py, lines 31-85) *)

(** The inner function [dump_agent], lines 38-49. *)
Definition dump_agent (agent : Agent) : dict :=
  let exclude :=
    if negb (AgentType_eqb (agent_type agent) groupchat)
    then [ "admin_name"; "messages"; "max_round"; "admin_name";
           "speaker_selection_method"; "allow_repeat_speaker" ]
    else [] in
  Agent_model_dump exclude agent.

Definition model_exclude : list string :=
  [ "id"; "agent_id"; "created_at"; "updated_at"; "user_id"; "description" ].

(** Lines 67-72: with at least one model, [config.llm_config] is read
    (default [{}]), stored back, given [config_list] when truthy, and stored
    back again.  Item assignment on a value that is not a dictionary is a
    TypeError; [.get] on a config that is not a dictionary an
    AttributeError. *)
Definition set_config_list (models' : list value) (agent_dict : dict)
  : result dict :=
  match models' with
  | [] => Ok agent_dict
  | _ :: _ =>
      match dict_get "config" agent_dict with
      | None => Raise (KeyError "config")
      | Some (VDict config) =>
          let llm_config :=
            match dict_get "llm_config" config with
            | Some v => v
            | None => VDict []
            end in
          let config := dict_set "llm_config" llm_config config in
          let assigned :=
            if truthy llm_config
            then match llm_config with
                 | VDict l => Ok (VDict (dict_set "config_list" (VList models') l))
                 | _ => Raise TypeError
                 end
            else Ok llm_config in
          match assigned with
          | Ok llm_config =>
              Ok (dict_set "config"
                    (VDict (dict_set "llm_config" llm_config config)) agent_dict)
          | Raise e => Raise e
          end
      | Some _ => Raise AttributeError
      end
  end.

(** [data[0]] *)
Definition first_row {S A} (data : list A) : M S A :=
  match data with
  | a :: _ => ret a
  | [] => raise IndexError
  end.

(** The inner function [get_agent], lines 51-74.  [depth] is the number of
    nested calls the interpreter's recursion limit still admits: Python
    raises RecursionError when it is used up. *)
Fixpoint get_agent (depth : nat) (agent_id' : Z) : M World value :=
  match depth with
  | O => raise RecursionError
  | S depth' =>
      data <- dbmanager_get_items_Agent agent_id' ;;
      agent <- first_row data ;;
      let agent_dict := dump_agent agent in
      agent_skills <- Agent_skills agent ;;
      let agent_dict :=
        dict_set "skills"
          (VList (map (fun skill => Skill_model_validate (Skill_model_dump skill))
                      agent_skills))
          agent_dict in
      agent_models <- Agent_models agent ;;
      let models' :=
        map (fun model => VDict (Model_model_dump model_exclude model))
            agent_models in
      let agent_dict :=
        dict_set "models"
          (VList (map (fun model => VDict (Model_model_dump [] model)) agent_models))
          agent_dict in
      agent_dict <- lift_result (set_config_list models' agent_dict) ;;
      sub_agents <- Agent_agents agent ;;
      subs <- mapM (fun a => get_agent depth' (agent_id a)) sub_agents ;;
      ret (VDict (dict_set "agents" (VList subs) agent_dict))
  end.

(** The sort key of line 83, [x["link"]["sequence_id"]]. *)
Definition sequence_key (x : value) : result Z :=
  match x with
  | VDict d =>
      match dict_get "link" d with
      | Some (VDict l) =>
          match dict_get "sequence_id" l with
          | Some (VInt z) => Ok z
          | Some _ => Raise TypeError
          | None => Raise (KeyError "sequence_id")
          end
      | Some _ => Raise TypeError
      | None => Raise (KeyError "link")
      end
  | _ => Raise TypeError
  end.

(** Python's [sorted] is stable: an element goes in front of the first
    later element whose key is not smaller. *)
Fixpoint insert_by_key (k : Z) (x : value) (l : list (Z * value))
  : list (Z * value) :=
  match l with
  | [] => [(k, x)]
  | (k', y) :: l' =>
      if k <=? k' then (k, x) :: (k', y) :: l'
      else (k', y) :: insert_by_key k x l'
  end.

Definition sort_keyed (kvs : list (Z * value)) : list (Z * value) :=
  fold_right (fun kv acc => insert_by_key (fst kv) (snd kv) acc) [] kvs.

(** [sorted(agents, key=lambda x: x["link"]["sequence_id"])]: the keys are
    computed first, then the list is sorted on them. *)
Definition sorted_by_sequence_id {S} (agents' : list value) : M S (list value) :=
  keys <- mapM (fun x => lift_result (sequence_key x)) agents' ;;
  ret (map snd (sort_keyed (combine keys agents'))).

Definition value_is_str (v : value) (s : string) : bool :=
  match v with
  | VStr s' => (s' =? s)%string
  | _ => false
  end.

Definition subscript {S} (d : dict) (k : string) : M S value :=
  match dict_get k d with
  | Some v => ret v
  | None => raise (KeyError k)
  end.

(** The body of the loop of lines 77-79: the entry appended for a link. *)
Definition agent_entry (recursion_limit : nat) (link : WorkflowAgentLink)
  : M World value :=
  agent_dict <- get_agent recursion_limit (wal_agent_id link) ;;
  ret (VDict [ ("agent", agent_dict);
               ("link", VDict (WorkflowAgentLink_model_dump link)) ]).

Definition workflow_from_id (recursion_limit : nat) (workflow_id' : Z)
  : M World dict :=
  workflow <- dbmanager_get_Workflow_by_id workflow_id' ;;
  match workflow with
  | [] => raise (ValueError "The specified workflow does not exist.")
  | w0 :: _ =>
      let workflow := Workflow_model_dump w0 in
      workflow_agent_links' <- dbmanager_get_WorkflowAgentLink workflow_id' ;;
      agents' <- mapM (agent_entry recursion_limit) workflow_agent_links' ;;
      type <- subscript workflow "type" ;;
      agents' <-
        (if value_is_str type (WorkFlowType_value sequential)
         then sorted_by_sequence_id agents'
         else ret agents') ;;
      ret (dict_set "agents" (VList agents') workflow)
  end.

(** ** The session and [dbmanager.link]

    Modelled from the spec: the ORM session and [dbmanager.link] are not
    under src/.  [session.add] stages a row, [session.commit] appends the
    staged rows to their tables.  The rows of a table are flushed in the
    order in which they were added and take the keys after the largest key
    committed; that key is the value the object's [id] shows after the
    commit, so [session_add] hands it out when the row is staged.
    [dbmanager.link] inserts one row into the link table of its link type;
    a workflow-agent link is created with the default [sequence_id] 0. *)

Definition max_id (ids : list Z) : Z := fold_right Z.max 0 ids.

Definition next_id {R} (rid : R -> Z) (committed staged : list R) : Z :=
  max_id (map rid committed) + Z.of_nat (S (List.length staged)).

Definition db_append (a b : DB) : DB :=
  mkDB (models a ++ models b) (skills a ++ skills b)
       (agents a ++ agents b) (workflows a ++ workflows b)
       (agent_model_links a ++ agent_model_links b)
       (agent_skill_links a ++ agent_skill_links b)
       (agent_links a ++ agent_links b)
       (workflow_agent_links a ++ workflow_agent_links b).

Definition no_links (m : list Model) (s : list Skill) (a : list Agent)
           (w : list Workflow) : DB :=
  mkDB m s a w [] [] [] [].

Definition session_open : M World unit :=
  modify (fun w => mkWorld (db w) empty_db (events w ++ [EvSessionOpen])).

Definition session_close : M World unit :=
  modify (fun w => mkWorld (db w) empty_db (events w ++ [EvSessionClose])).

Definition session_add_Model (cols : dict) : M World Z :=
  fun w =>
    let id := next_id model_id (models (db w)) (models (pending w)) in
    (Ok id,
     mkWorld (db w)
             (db_append (pending w) (no_links [mkModel id cols] [] [] []))
             (events w ++ [EvAdd "model" id])).

Definition session_add_Skill (cols : dict) : M World Z :=
  fun w =>
    let id := next_id skill_id (skills (db w)) (skills (pending w)) in
    (Ok id,
     mkWorld (db w)
             (db_append (pending w) (no_links [] [mkSkill id cols] [] []))
             (events w ++ [EvAdd "skill" id])).

Definition session_add_Agent (type : AgentType) (config cols : dict)
  : M World Z :=
  fun w =>
    let id := next_id agent_id (agents (db w)) (agents (pending w)) in
    (Ok id,
     mkWorld (db w)
             (db_append (pending w)
                        (no_links [] [] [mkAgent id type config cols] []))
             (events w ++ [EvAdd "agent" id])).

Definition session_add_Workflow (name : string) (type : WorkFlowType)
           (cols : dict) : M World Z :=
  fun w =>
    let id := next_id workflow_id (workflows (db w)) (workflows (pending w)) in
    (Ok id,
     mkWorld (db w)
             (db_append (pending w)
                        (no_links [] [] [] [mkWorkflow id name type cols]))
             (events w ++ [EvAdd "workflow" id])).

Definition session_commit : M World unit :=
  modify (fun w => mkWorld (db_append (db w) (pending w)) empty_db
                           (events w ++ [EvCommit])).

Definition link_rows (link_type : string) (primary_id secondary_id : Z)
           (agent_type' : option string) : DB :=
  if (link_type =? "agent_model")%string then
    mkDB [] [] [] [] [(primary_id, secondary_id)] [] [] []
  else if (link_type =? "agent_skill")%string then
    mkDB [] [] [] [] [] [(primary_id, secondary_id)] [] []
  else if (link_type =? "agent_agent")%string then
    mkDB [] [] [] [] [] [] [(primary_id, secondary_id)] []
  else if (link_type =? "workflow_agent")%string then
    mkDB [] [] [] [] [] [] []
         [mkWorkflowAgentLink primary_id secondary_id
            (match agent_type' with Some t => t | None => "" end) 0]
  else empty_db.

Definition dbmanager_link (link_type : string) (primary_id secondary_id : Z)
           (agent_type' : option string) : M World unit :=
  modify (fun w =>
            mkWorld (db_append (db w)
                       (link_rows link_type primary_id secondary_id agent_type'))
                    (pending w)
                    (events w ++ [EvLink link_type primary_id secondary_id
                                         agent_type'])).

(** ** [init_db_samples] (utils.py, lines 145-354) *)

Section Seeding.

(** The source text of the two sample skills (lines 185 and 192) and
    autogen's [AssistantAgent.DEFAULT_SYSTEM_MESSAGE] are long string
    constants that no property depends on. *)
Variables generate_pdf_content generate_image_content
          DEFAULT_SYSTEM_MESSAGE : string.

Definition guestuser : value := VStr "guestuser@gmail.com".

(** models *)
Definition google_gemini_model : dict :=
  [ ("model", VStr "gemini-1.5-pro-latest");
    ("description", VStr "Google's Gemini model");
    ("user_id", guestuser);
    ("api_type", VStr "google") ].
Definition azure_model : dict :=
  [ ("model", VStr "gpt4-turbo");
    ("description", VStr "Azure OpenAI  model");
    ("user_id", guestuser);
    ("api_type", VStr "azure");
    ("base_url", VStr "https://api.your azureendpoint.com/v1") ].
Definition zephyr_model : dict :=
  [ ("model", VStr "zephyr");
    ("description",
     VStr "Local Huggingface Zephyr model via vLLM, LMStudio or Ollama");
    ("base_url", VStr "http://localhost:1234/v1");
    ("user_id", guestuser);
    ("api_type", VStr "open_ai") ].
Definition gpt_4_model : dict :=
  [ ("model", VStr "gpt-4-1106-preview");
    ("description", VStr "OpenAI GPT-4 model");
    ("user_id", guestuser);
    ("api_type", VStr "open_ai") ].

(** skills *)
Definition generate_pdf_skill : dict :=
  [ ("name", VStr "generate_and_save_pdf");
    ("description",
     VStr "Generate and save a pdf file based on the provided input sections.");
    ("user_id", guestuser);
    ("libraries", VList [VStr "requests"; VStr "fpdf"; VStr "PIL"]);
    ("content", VStr generate_pdf_content) ].
Definition generate_image_skill : dict :=
  [ ("name", VStr "generate_and_save_images");
    ("secrets",
     VList [VDict [("secret", VStr "OPENAI_API_KEY"); ("value", VNone)]]);
    ("libraries", VList [VStr "openai"]);
    ("description", VStr "Generate and save images based on a user's query.");
    ("content", VStr generate_image_content);
    ("user_id", guestuser) ].

(** agents: each [AgentConfig(...).model_dump(mode="json")] is the
    dictionary of the arguments given. *)
Definition planner_assistant_config : dict :=
  [ ("name", VStr "planner_assistant");
    ("description", VStr "Assistant Agent");
    ("human_input_mode", VStr "NEVER");
    ("max_consecutive_auto_reply", VInt 25);
    ("system_message",
     VStr "You are a helpful assistant that can suggest a travel plan for a user and utilize any context information provided. You are the primary cordinator who will receive suggestions or advice from other agents (local_assistant, language_assistant). You must ensure that the finally plan integrates the suggestions from other agents or team members. YOUR FINAL RESPONSE MUST BE THE COMPLETE PLAN. When the plan is complete and all perspectives are integrated, you can respond with TERMINATE.");
    ("code_execution_config", VStr "none");
    ("llm_config", VDict []) ].
Definition local_assistant_config : dict :=
  [ ("name", VStr "local_assistant");
    ("description", VStr "Local Assistant Agent");
    ("human_input_mode", VStr "NEVER");
    ("max_consecutive_auto_reply", VInt 25);
    ("system_message",
     VStr "You are a local assistant that can suggest local activities or places to visit for a user and can utilize any context information provided. You can suggest local activities, places to visit, restaurants to eat at, etc. You can also provide information about the weather, local events, etc. You can provide information about the local area, but you cannot suggest a complete travel plan. You can only provide information about the local area.");
    ("code_execution_config", VStr "none");
    ("llm_config", VDict []) ].
Definition language_assistant_config : dict :=
  [ ("name", VStr "language_assistant");
    ("description", VStr "Language Assistant Agent");
    ("human_input_mode", VStr "NEVER");
    ("max_consecutive_auto_reply", VInt 25);
    ("system_message",
     VStr "You are a helpful assistant that can review travel plans, providing feedback on important/critical tips about how best to address language or communication challenges for the given destination. If the plan already includes language tips, you can mention that the plan is satisfactory, with rationale.");
    ("code_execution_config", VStr "none");
    ("llm_config", VDict []) ].
Definition travel_groupchat_config : dict :=
  [ ("name", VStr "travel_groupchat");
    ("admin_name", VStr "groupchat");
    ("description", VStr "Group Chat Agent Configuration");
    ("human_input_mode", VStr "NEVER");
    ("max_consecutive_auto_reply", VInt 25);
    ("system_message", VStr "You are a group chat manager");
    ("code_execution_config", VStr "none");
    ("default_auto_reply", VStr "TERMINATE");
    ("llm_config", VDict []);
    ("speaker_selection_method", VStr "auto") ].
Definition user_proxy_config : dict :=
  [ ("name", VStr "user_proxy");
    ("description", VStr "User Proxy Agent Configuration");
    ("human_input_mode", VStr "NEVER");
    ("max_consecutive_auto_reply", VInt 25);
    ("system_message", VStr "You are a helpful assistant");
    ("code_execution_config", VStr "local");
    ("default_auto_reply", VStr "TERMINATE");
    ("llm_config", VBool false) ].
Definition default_assistant_config : dict :=
  [ ("name", VStr "default_assistant");
    ("description", VStr "Assistant Agent");
    ("human_input_mode", VStr "NEVER");
    ("max_consecutive_auto_reply", VInt 25);
    ("system_message", VStr DEFAULT_SYSTEM_MESSAGE);
    ("code_execution_config", VStr "none");
    ("llm_config", VDict []) ].

Definition agent_cols_guest : dict := [ ("user_id", guestuser) ].

(** workflows; a new Workflow has the default type. *)
Definition travel_workflow_cols : dict :=
  [ ("description", VStr "Travel workflow");
    ("user_id", guestuser);
    ("sample_tasks",
     VList [ VStr "Plan a 3 day trip to Hawaii Islands.";
             VStr "Plan an eventful and exciting trip to  Uzbeksitan." ]) ].
Definition default_workflow_cols : dict :=
  [ ("description", VStr "Default workflow");
    ("user_id", guestuser);
    ("sample_tasks",
     VList [ VStr "paint a picture of a glass of ethiopian coffee, freshly brewed in a tall glass cup, on a table right in front of a lush green forest scenery";
             VStr "Plot the stock price of NVIDIA YTD." ]) ].

(** Lines 146-148: the test that guards the seeding. *)
Definition already_initialized (workflows' : list Workflow) : bool :=
  let workflow_names := map workflow_name workflows' in
  str_mem "Default Workflow" workflow_names
  && str_mem "Travel Planning Workflow" workflow_names.

(** Lines 302-354: the body of the [with Session(...)] block. *)
Definition seed_rows_and_links : M World unit :=
  zephyr <- session_add_Model zephyr_model ;;
  google_gemini <- session_add_Model google_gemini_model ;;
  azure <- session_add_Model azure_model ;;
  gpt_4 <- session_add_Model gpt_4_model ;;
  generate_image <- session_add_Skill generate_image_skill ;;
  generate_pdf <- session_add_Skill generate_pdf_skill ;;
  user_proxy <- session_add_Agent userproxy user_proxy_config agent_cols_guest ;;
  default_assistant <-
    session_add_Agent assistant default_assistant_config agent_cols_guest ;;
  travel_groupchat_agent <-
    session_add_Agent groupchat travel_groupchat_config agent_cols_guest ;;
  planner_assistant <-
    session_add_Agent assistant planner_assistant_config agent_cols_guest ;;
  local_assistant <-
    session_add_Agent assistant local_assistant_config agent_cols_guest ;;
  language_assistant <-
    session_add_Agent assistant language_assistant_config agent_cols_guest ;;
  travel_workflow <-
    session_add_Workflow "Travel Planning Workflow" autonomous
                         travel_workflow_cols ;;
  default_workflow <-
    session_add_Workflow "Default Workflow" autonomous default_workflow_cols ;;
  session_commit ;;;
  dbmanager_link "agent_model" default_assistant gpt_4 None ;;;
  dbmanager_link "agent_skill" default_assistant generate_image None ;;;
  dbmanager_link "workflow_agent" default_workflow user_proxy (Some "sender") ;;;
  dbmanager_link "workflow_agent" default_workflow default_assistant
                 (Some "receiver") ;;;
  dbmanager_link "agent_agent" travel_groupchat_agent planner_assistant None ;;;
  dbmanager_link "agent_agent" travel_groupchat_agent local_assistant None ;;;
  dbmanager_link "agent_agent" travel_groupchat_agent language_assistant None ;;;
  dbmanager_link "agent_agent" travel_groupchat_agent user_proxy None ;;;
  dbmanager_link "agent_model" travel_groupchat_agent gpt_4 None ;;;
  dbmanager_link "agent_model" planner_assistant gpt_4 None ;;;
  dbmanager_link "agent_model" local_assistant gpt_4 None ;;;
  dbmanager_link "agent_model" language_assistant gpt_4 None ;;;
  dbmanager_link "workflow_agent" travel_workflow user_proxy (Some "sender") ;;;
  dbmanager_link "workflow_agent" travel_workflow travel_groupchat_agent
                 (Some "receiver") ;;;
  logger_info
    "Successfully initialized database with Default and Travel Planning Workflows".

Definition init_db_samples : M World unit :=
  workflows' <- dbmanager_get_Workflow ;;
  if already_initialized workflows' then
    logger_info
      "Database already initialized with Default and Travel Planning Workflows"
  else
    logger_info
      "Initializing database with Default and Travel Planning Workflows" ;;;
    session_open ;;;
    seed_rows_and_links ;;;
    session_close.

End Seeding.

(** ** [run_migration] (utils.py, lines 88-142) *)

(** What a run leaves behind: the calls into the database and into
    alembic's [command], the writes to the log buffer, and the log lines
    (with the exception they report, if any). *)
Inductive mevent : Type :=
| MPrint (msg : string)
| MLog (level msg : string) (exc : option exn)
| MSelectVersion
| MEnsureVersion
| MUpgradeHead
| MCheck
| MWrite (msg : string)
| MSleep (seconds : Z).

Definition mevent_is_check (e : mevent) : bool :=
  match e with MCheck => true | _ => false end.
Definition mevent_is_upgrade (e : mevent) : bool :=
  match e with MUpgradeHead => true | _ => false end.
Definition mevent_is_ensure_version (e : mevent) : bool :=
  match e with MEnsureVersion => true | _ => false end.

Definition count_events (p : mevent -> bool) (t : list mevent) : nat :=
  List.length (filter p t).

(** [isinstance(exc, (util.exc.CommandError, util.exc.AutogenerateDiffsDetected))] *)
Definition is_command_error (e : exn) : bool :=
  match e with
  | CommandError | AutogenerateDiffsDetected => true
  | _ => false
  end.

Section Migration.

(** The database file and the migration scripts, as the SQL session and
    alembic see them, are outside the module: a state [Env] and, for each
    call the function makes, whether it raises and the state it leaves. *)
Variable Env : Type.
Variable session_exec_select_alembic_version : Env -> option exn * Env.
Variable command_ensure_version : Env -> option exn * Env.
Variable command_upgrade_head : Env -> option exn * Env.
Variable command_check : Env -> option exn * Env.

Record MWorld : Type := mkMWorld { env : Env; trace : list mevent }.

Definition record (e : mevent) : M MWorld unit :=
  modify (fun w => mkMWorld (env w) (trace w ++ [e])).

Definition call (op : Env -> option exn * Env) (e : mevent) : M MWorld unit :=
  fun w =>
    let '(r, env') := op (env w) in
    (match r with None => Ok tt | Some x => Raise x end,
     mkMWorld env' (trace w ++ [e])).

(** [try: m except Exception as exc: h exc else: els] *)
Definition try_except_else {S A B} (m : M S A) (h : exn -> M S B)
           (els : A -> M S B) : M S B :=
  fun s =>
    match m s with
    | (Ok a, s') => els a s'
    | (Raise e, s') => h e s'
    end.

(** Lines 100-108. *)
Definition check_initialized : M MWorld bool :=
  try_except_else
    (call session_exec_select_alembic_version MSelectVersion)
    (fun _ => record (MLog "INFO" "Alembic not initialized" None) ;;; ret true)
    (fun _ => record (MLog "INFO" "Alembic already initialized" None) ;;;
              ret false).

(** Lines 110-118. *)
Definition initialize_alembic : M MWorld unit :=
  try_except
    (record (MLog "INFO" "Initializing alembic" None) ;;;
     call command_ensure_version MEnsureVersion ;;;
     call command_upgrade_head MUpgradeHead ;;;
     record (MLog "INFO" "Alembic initialized" None))
    (fun exc =>
       record (MLog "ERROR" "Error initializing alembic: " (Some exc)) ;;;
       raise (RuntimeError "Error initializing alembic")).

(** Lines 122-131. *)
Definition check_and_upgrade : M MWorld unit :=
  try_except
    (record (MWrite "Checking migrations") ;;;
     call command_check MCheck)
    (fun exc =>
       if is_command_error exc then
         try_except
           (call command_upgrade_head MUpgradeHead ;;;
            record (MSleep 3))
           (fun exc' =>
              record (MLog "ERROR" "Error running migrations: " (Some exc')))
       else ret tt).

(** Lines 133-142. *)
Definition final_check : M MWorld unit :=
  try_except
    (record (MWrite "Checking migrations") ;;;
     call command_check MCheck)
    (fun exc =>
       match exc with
       | AutogenerateDiffsDetected =>
           record (MLog "INFO" "AutogenerateDiffsDetected: " (Some exc))
       | CommandError =>
           record (MLog "ERROR" "CommandError: " (Some exc))
       | _ => raise exc
       end).

(** The function from line 98 on; the set-up of lines 89-96 (engine, log
    buffer, alembic Config) makes none of the calls above. *)
Definition run_migration : M MWorld unit :=
  record (MPrint "Running migrations with engine_uri: ") ;;;
  should_initialize_alembic <- check_initialized ;;
  (if should_initialize_alembic : bool then initialize_alembic else ret tt) ;;;
  record (MLog "INFO" "Running DB migrations in " None) ;;;
  check_and_upgrade ;;;
  final_check.

(** Whether lines 100-118 end in the RuntimeError: the version query
    fails and then [ensure_version] or the upgrade to head fails. *)
Definition initialization_fails (e : Env) : bool :=
  match session_exec_select_alembic_version e with
  | (None, _) => false
  | (Some _, e1) =>
      match command_ensure_version e1 with
      | (Some _, _) => true
      | (None, e2) =>
          match command_upgrade_head e2 with
          | (Some _, _) => true
          | (None, _) => false
          end
      end
  end.

End Migration.

Arguments mkMWorld {Env} env trace.
Arguments env {Env} m.
Arguments trace {Env} m.

(** ** The properties' vocabulary *)

(** [config.llm_config], with the default [{}] of line 68. *)
Definition llm_config_of (a : Agent) : value :=
  match dict_get "llm_config" (agent_config a) with
  | Some v => v
  | None => VDict []
  end.

Definition is_dict (v : value) : bool :=
  match v with VDict _ => true | _ => false end.

(** With models linked, a truthy [llm_config] has to take an item. *)
Definition config_assignable (d : DB) (a : Agent) : bool :=
  match models_of d a with
  | [] => true
  | _ :: _ => negb (truthy (llm_config_of a)) || is_dict (llm_config_of a)
  end.

(** The agent [agent_id'] exists, its [llm_config] can take [config_list],
    and so for its sub-agents, nested fewer than [depth] levels deep. *)
Fixpoint nests_within (d : DB) (depth : nat) (agent_id' : Z) : bool :=
  match depth with
  | O => false
  | S depth' =>
      match agent_rows d agent_id' with
      | [] => false
      | a :: _ =>
          config_assignable d a
          && forallb (fun b => nests_within d depth' (agent_id b)) (agents_of d a)
      end
  end.

Definition added_keys : list string := [ "skills"; "models"; "agents"; "config" ].


(** The nested agent of the specification: the dump of the agent row,
    extended with its skills, its models and, built the same way, its
    sub-agents; inside [config] only [llm_config] may differ from the row. *)
Inductive agent_view (d : DB) : Z -> value -> Prop :=
| agent_view_intro (agent_id' : Z) (a : Agent) (rest : list Agent)
    (ad : dict) (subs : list value) :
    agent_rows d agent_id' = a :: rest ->
    (forall k, str_mem k added_keys = false ->
               dict_get k ad = dict_get k (dump_agent a)) ->
    (exists config,
        dict_get "config" ad = Some (VDict config)
        /\ forall k, k <> "llm_config" ->
                     dict_get k config = dict_get k (agent_config a)) ->
    dict_get "skills" ad
    = Some (VList (map (fun s => Skill_model_validate (Skill_model_dump s))
                       (skills_of d a))) ->
    dict_get "models" ad
    = Some (VList (map (fun m => VDict (Model_model_dump [] m)) (models_of d a))) ->
    dict_get "agents" ad = Some (VList subs) ->
    Forall2 (agent_view d) (map agent_id (agents_of d a)) subs ->
    agent_view d agent_id' (VDict ad).

(** The agent dictionary before lines 67-73 run, and the list [models] of
    line 64. *)
Definition agent_base (d : DB) (a : Agent) : dict :=
  dict_set "models"
    (VList (map (fun m => VDict (Model_model_dump [] m)) (models_of d a)))
    (dict_set "skills"
       (VList (map (fun s => Skill_model_validate (Skill_model_dump s))
                   (skills_of d a)))
       (dump_agent a)).

Definition config_models (d : DB) (a : Agent) : list value :=
  map (fun m => VDict (Model_model_dump model_exclude m)) (models_of d a).

(** The exceptions of [get_agent]: never a ValueError. *)
Definition agent_exn (e : exn) : Prop :=
  e = IndexError \/ e = RecursionError \/ e = KeyError "config"
  \/ e = AttributeError \/ e = TypeError.

(** One entry of the ["agents"] list of a workflow. *)
Definition entry_of_link (d : DB) (l : WorkflowAgentLink) (e : value) : Prop :=
  exists ag,
    e = VDict [ ("agent", ag); ("link", VDict (WorkflowAgentLink_model_dump l)) ]
    /\ agent_view d (wal_agent_id l) ag.

Definition entry_link (e : value) : option value :=
  match e with
  | VDict d => dict_get "link" d
  | _ => None
  end.

Definition link_dump (l : WorkflowAgentLink) : option value :=
  Some (VDict (WorkflowAgentLink_model_dump l)).

(** The shape of the entry of a link, whatever its agent. *)
Definition entry_shape (l : WorkflowAgentLink) (e : value) : Prop :=
  exists ag,
    e = VDict [ ("agent", ag); ("link", VDict (WorkflowAgentLink_model_dump l)) ].

(** The entries of a sequential workflow, as line 83 sorts them. *)
Definition sorted_entries (links : list WorkflowAgentLink)
           (entries : list value) : list (Z * value) :=
  sort_keyed (combine (map wal_sequence_id links) entries).

(** The order in which lines 81-83 leave the entries. *)
Definition arranged (t : WorkFlowType) (links : list WorkflowAgentLink)
           (entries : list value) : list value :=
  match t with
  | sequential => map snd (sorted_entries links entries)
  | autonomous => entries
  end.

Definition no_workflow_row (d : DB) (workflow_id' : Z) : Prop :=
  forall r, In r (workflows d) -> workflow_id r <> workflow_id'.

Definition missing_workflow : exn :=
  ValueError "The specified workflow does not exist.".

(** A computation that only reads, and one that raises only within [P]. *)
Definition reads_only {S A} (m : M S A) : Prop := forall s, snd (m s) = s.

Definition raises_only {S A} (P : exn -> Prop) (m : M S A) : Prop :=
  forall s e, fst (m s) = Raise e -> P e.

Definition is_add (e : event) : bool :=
  match e with EvAdd _ _ => true | _ => false end.
Definition is_link (e : event) : bool :=
  match e with EvLink _ _ _ _ => true | _ => false end.
Definition is_commit (e : event) : bool :=
  match e with EvCommit => true | _ => false end.
Definition is_link_of_type (t : string) (e : event) : bool :=
  match e with EvLink t' _ _ _ => (t' =? t)%string | _ => false end.

(** The rows and links that seeding adds to a database whose largest
    model, skill, agent and workflow keys are [m], [s], [a] and [f], and the
    writes that add them. *)
Section Seeds.

Variables generate_pdf_content generate_image_content
          DEFAULT_SYSTEM_MESSAGE : string.
Variables m s a f : Z.

Definition seed_db : DB :=
  mkDB
    [ mkModel (m + 1) zephyr_model;
      mkModel (m + 2) google_gemini_model;
      mkModel (m + 3) azure_model;
      mkModel (m + 4) gpt_4_model ]
    [ mkSkill (s + 1) (generate_image_skill generate_image_content);
      mkSkill (s + 2) (generate_pdf_skill generate_pdf_content) ]
    [ mkAgent (a + 1) userproxy user_proxy_config agent_cols_guest;
      mkAgent (a + 2) assistant
              (default_assistant_config DEFAULT_SYSTEM_MESSAGE) agent_cols_guest;
      mkAgent (a + 3) groupchat travel_groupchat_config agent_cols_guest;
      mkAgent (a + 4) assistant planner_assistant_config agent_cols_guest;
      mkAgent (a + 5) assistant local_assistant_config agent_cols_guest;
      mkAgent (a + 6) assistant language_assistant_config agent_cols_guest ]
    [ mkWorkflow (f + 1) "Travel Planning Workflow" autonomous
                 travel_workflow_cols;
      mkWorkflow (f + 2) "Default Workflow" autonomous default_workflow_cols ]
    [ (a + 2, m + 4); (a + 3, m + 4); (a + 4, m + 4); (a + 5, m + 4);
      (a + 6, m + 4) ]
    [ (a + 2, s + 1) ]
    [ (a + 3, a + 4); (a + 3, a + 5); (a + 3, a + 6); (a + 3, a + 1) ]
    [ mkWorkflowAgentLink (f + 2) (a + 1) "sender" 0;
      mkWorkflowAgentLink (f + 2) (a + 2) "receiver" 0;
      mkWorkflowAgentLink (f + 1) (a + 1) "sender" 0;
      mkWorkflowAgentLink (f + 1) (a + 3) "receiver" 0 ].

Definition seed_adds : list event :=
  [ EvAdd "model" (m + 1); EvAdd "model" (m + 2); EvAdd "model" (m + 3);
    EvAdd "model" (m + 4); EvAdd "skill" (s + 1); EvAdd "skill" (s + 2);
    EvAdd "agent" (a + 1); EvAdd "agent" (a + 2); EvAdd "agent" (a + 3);
    EvAdd "agent" (a + 4); EvAdd "agent" (a + 5); EvAdd "agent" (a + 6);
    EvAdd "workflow" (f + 1); EvAdd "workflow" (f + 2) ].

Definition seed_links : list event :=
  [ EvLink "agent_model" (a + 2) (m + 4) None;
    EvLink "agent_skill" (a + 2) (s + 1) None;
    EvLink "workflow_agent" (f + 2) (a + 1) (Some "sender");
    EvLink "workflow_agent" (f + 2) (a + 2) (Some "receiver");
    EvLink "agent_agent" (a + 3) (a + 4) None;
    EvLink "agent_agent" (a + 3) (a + 5) None;
    EvLink "agent_agent" (a + 3) (a + 6) None;
    EvLink "agent_agent" (a + 3) (a + 1) None;
    EvLink "agent_model" (a + 3) (m + 4) None;
    EvLink "agent_model" (a + 4) (m + 4) None;
    EvLink "agent_model" (a + 5) (m + 4) None;
    EvLink "agent_model" (a + 6) (m + 4) None;
    EvLink "workflow_agent" (f + 1) (a + 1) (Some "sender");
    EvLink "workflow_agent" (f + 1) (a + 3) (Some "receiver") ].

Definition seed_events : list event :=
  seed_adds ++ [EvCommit] ++ seed_links
  ++ [ EvLog "INFO"
         "Successfully initialized database with Default and Travel Planning Workflows" ].

End Seeds.

(** The seed of a given database. *)
Definition seed_of (pdf img sys : string) (d : DB) : DB :=
  seed_db pdf img sys
          (max_id (map model_id (models d))) (max_id (map skill_id (skills d)))
          (max_id (map agent_id (agents d)))
          (max_id (map workflow_id (workflows d))).

Definition seed_events_of (d : DB) : list event :=
  seed_events (max_id (map model_id (models d)))
              (max_id (map skill_id (skills d)))
              (max_id (map agent_id (agents d)))
              (max_id (map workflow_id (workflows d))).

Definition count_if {A} (p : A -> bool) (l : list A) : nat :=
  List.length (filter p l).

(** ** Sample databases and environments *)

Definition world_of (d : DB) : World := mkWorld d empty_db [].

(** The database after seeding an empty one. *)
Definition seeded_world : World :=
  Eval vm_compute in
    snd (init_db_samples "pdf" "images" "assistant" (world_of empty_db)).

Definition one_workflow (t : WorkFlowType) : list Workflow :=
  [ mkWorkflow 1 "w" t [] ].

(** An agent that is its own sub-agent. *)
Definition cyclic_db : DB :=
  mkDB [] [] [ mkAgent 1 assistant [("llm_config", VDict [])] [] ]
       (one_workflow autonomous) [] [] [(1, 1)]
       [ mkWorkflowAgentLink 1 1 "sender" 0 ].

(** A workflow link whose agent row is gone. *)
Definition dangling_db : DB :=
  mkDB [] [] [] (one_workflow autonomous) [] [] []
       [ mkWorkflowAgentLink 1 7 "sender" 0 ].

(** An agent with a model whose [llm_config] is [llm]. *)
Definition llm_db (llm : value) : DB :=
  mkDB [ mkModel 1 [("model", VStr "gpt-4")] ] []
       [ mkAgent 1 assistant [("llm_config", llm)] [] ]
       (one_workflow autonomous) [(1, 1)] [] []
       [ mkWorkflowAgentLink 1 1 "sender" 0 ].

(** Two agents linked to a workflow of type [t], the later one first. *)
Definition two_step_db (t : WorkFlowType) : DB :=
  mkDB [] []
       [ mkAgent 1 assistant [] []; mkAgent 2 assistant [] [] ]
       (one_workflow t) [] [] []
       [ mkWorkflowAgentLink 1 1 "sender" 2;
         mkWorkflowAgentLink 1 2 "receiver" 1 ].

(** What [workflow_from_id] and [get_agent] return on two of them. *)
Definition result_or {A} (default : A) (r : result A) : A :=
  match r with Ok a => a | Raise _ => default end.

Definition temperature_config : value := VDict [("temperature", VInt 0)].

Definition two_step_sorted : dict :=
  Eval vm_compute in
    result_or [] (fst (workflow_from_id 1 1 (world_of (two_step_db sequential)))).

Definition llm_agent_dict : value :=
  Eval vm_compute in
    result_or VNone (fst (get_agent 1 1 (world_of (llm_db temperature_config)))).

Definition llm_workflow_dict : dict :=
  Eval vm_compute in
    result_or []
      (fst (workflow_from_id 1 1 (world_of (llm_db temperature_config)))).

(** An environment for [run_migration] that plays a script: each call
    takes the next outcome, and succeeds once the script is used up. *)
Definition scripted (script : list (option exn))
  : option exn * list (option exn) :=
  match script with
  | [] => (None, [])
  | r :: script' => (r, script')
  end.

Definition run_scripted (script : list (option exn))
  : result unit * MWorld (list (option exn)) :=
  run_migration (list (option exn)) scripted scripted scripted scripted
                (mkMWorld script []).

(** The version query succeeds, then both checks fail with an error that
    is not alembic's (the database cannot be opened, say). *)
Definition failing_check_script : list (option exn) :=
  [ None;
    Some (OtherException "OperationalError");
    Some (OtherException "OperationalError") ].

(** An environment whose check raises only alembic's own exceptions:
    uninitialized, it needs [ensure_version] and [upgrade]; initialized but
    behind, its check reports the difference until the upgrade. *)
Inductive schema : Type := Uninitialized | Behind | AtHead.

Definition schema_select (s : schema) : option exn * schema :=
  match s with
  | Uninitialized => (Some (OtherException "OperationalError"), s)
  | _ => (None, s)
  end.
Definition schema_ensure_version (s : schema) : option exn * schema :=
  (None, match s with Uninitialized => Behind | _ => s end).
Definition schema_upgrade (s : schema) : option exn * schema := (None, AtHead).
Definition schema_check (s : schema) : option exn * schema :=
  match s with
  | AtHead => (None, s)
  | Behind => (Some AutogenerateDiffsDetected, s)
  | Uninitialized => (Some CommandError, s)
  end.

Definition run_schema (s : schema) : result unit * MWorld schema :=
  run_migration schema schema_select schema_ensure_version schema_upgrade
                schema_check (mkMWorld s []).

(** ** Further sample databases *)

(** Three links of a sequential workflow; the first two share a
    [sequence_id], the third has a smaller one. *)
Definition tied_db : DB :=
  mkDB [] []
       [ mkAgent 1 assistant [] []; mkAgent 2 assistant [] [] ]
       (one_workflow sequential) [] [] []
       [ mkWorkflowAgentLink 1 2 "sender" 5;
         mkWorkflowAgentLink 1 1 "receiver" 5;
         mkWorkflowAgentLink 1 1 "receiver" 0 ].

Definition tied_sorted : dict :=
  Eval vm_compute in
    result_or [] (fst (workflow_from_id 1 1 (world_of tied_db))).

(** An agent with a model and no [llm_config] in its config. *)
Definition no_llm_db : DB :=
  mkDB [ mkModel 1 [("model", VStr "gpt-4")] ] []
       [ mkAgent 1 assistant [("name", VStr "a")] [] ]
       (one_workflow autonomous) [(1, 1)] [] []
       [ mkWorkflowAgentLink 1 1 "sender" 0 ].

Definition no_llm_agent_dict : value :=
  Eval vm_compute in
    result_or VNone (fst (get_agent 1 1 (world_of no_llm_db))).

(** A database that holds only the first of the two sentinel workflows. *)
Definition default_only_db : DB :=
  mkDB [] [] [] [ mkWorkflow 1 "Default Workflow" autonomous [] ] [] [] [] [].

(** A sequential workflow whose two links have the default [sequence_id]. *)
Definition equal_keys_db : DB :=
  mkDB [] []
       [ mkAgent 1 assistant [] []; mkAgent 2 assistant [] [] ]
       (one_workflow sequential) [] [] []
       [ mkWorkflowAgentLink 1 2 "sender" 0;
         mkWorkflowAgentLink 1 1 "receiver" 0 ].

Definition equal_keys_result : dict :=
  Eval vm_compute in
    result_or [] (fst (workflow_from_id 1 1 (world_of equal_keys_db))).

(** ** Vocabulary of the further properties *)

(** The agent has a model, and an [llm_config] that is truthy but cannot
    take an item: line 71 raises TypeError. *)
Definition llm_config_rejects (d : DB) (a : Agent) : Prop :=
  models_of d a <> []
  /\ truthy (llm_config_of a) = true
  /\ is_dict (llm_config_of a) = false.

(** Why a call for a workflow that exists can fail. *)
Inductive failure_cause (d : DB) (limit : nat) (workflow_id' : Z) : exn -> Prop :=
| cause_missing_agent (l : WorkflowAgentLink) :
    In l (links_of_workflow d workflow_id') ->
    agent_rows d (wal_agent_id l) = [] ->
    failure_cause d limit workflow_id' IndexError
| cause_llm_config (a : Agent) :
    In a (agents d) -> llm_config_rejects d a ->
    failure_cause d limit workflow_id' TypeError
| cause_nesting (l : WorkflowAgentLink) :
    In l (links_of_workflow d workflow_id') ->
    nests_within d limit (wal_agent_id l) = false ->
    failure_cause d limit workflow_id' RecursionError.

(** The sequence_id of an entry is [k]. *)
Definition has_sequence_id (k : Z) (e : value) : bool :=
  match sequence_key e with
  | Ok k' => k' =? k
  | Raise _ => false
  end.

(** Referential integrity: every link row names rows that exist. *)
Definition has_id {R} (rid : R -> Z) (rows : list R) (id : Z) : Prop :=
  In id (map rid rows).

Definition links_resolve (d : DB) : Prop :=
  (forall l, In l (agent_model_links d) ->
             has_id agent_id (agents d) (fst l)
             /\ has_id model_id (models d) (snd l))
  /\ (forall l, In l (agent_skill_links d) ->
                has_id agent_id (agents d) (fst l)
                /\ has_id skill_id (skills d) (snd l))
  /\ (forall l, In l (agent_links d) ->
                has_id agent_id (agents d) (fst l)
                /\ has_id agent_id (agents d) (snd l))
  /\ (forall l, In l (workflow_agent_links d) ->
                has_id workflow_id (workflows d) (wal_workflow_id l)
                /\ has_id agent_id (agents d) (wal_agent_id l)).

Definition named (name : string) (r : Workflow) : bool :=
  (workflow_name r =? name)%string.

Definition mevent_is_sleep (e : mevent) : bool :=
  match e with MSleep _ => true | _ => false end.
Definition mevent_is_error_log (e : mevent) : bool :=
  match e with MLog level _ _ => (level =? "ERROR")%string | _ => false end.


(** Every row of [added] has a key larger than every key of its table in
    [d]: the rows of [added] are new rows. *)
Definition rows_are_new (d added : DB) : Prop :=
  (forall r r', In r (models added) -> In r' (models d) ->
                model_id r' < model_id r)
  /\ (forall r r', In r (skills added) -> In r' (skills d) ->
                   skill_id r' < skill_id r)
  /\ (forall r r', In r (agents added) -> In r' (agents d) ->
                   agent_id r' < agent_id r)
  /\ (forall r r', In r (workflows added) -> In r' (workflows d) ->
                   workflow_id r' < workflow_id r).

(** ** The stages of a migration run *)

Section MigrationOutcome.

Variable Env : Type.
Variables set_up select ensure_version upgrade check : Env -> option exn * Env.

(** Lines 89-96: creating the engine, opening [alembic.log] and building
    the alembic Config make none of the calls traced above, but any of them
    can raise, and nothing catches that. *)
Definition set_up_call : M (MWorld Env) unit :=
  fun w =>
    let '(r, e) := set_up (env w) in
    (match r with None => Ok tt | Some x => Raise x end,
     mkMWorld e (trace w)).

(** The whole function, lines 88-142. *)
Definition run_migration_with_setup : M (MWorld Env) unit :=
  set_up_call ;;;
  run_migration Env select ensure_version upgrade check.

(** What a run that gets past the initialization step leaves in the trace
    before its first check. *)
Definition prelude (e : Env) : list mevent :=
  [ MPrint "Running migrations with engine_uri: "; MSelectVersion ]
  ++ match fst (select e) with
     | None => [ MLog "INFO" "Alembic already initialized" None ]
     | Some _ =>
         [ MLog "INFO" "Alembic not initialized" None;
           MLog "INFO" "Initializing alembic" None;
           MEnsureVersion; MUpgradeHead;
           MLog "INFO" "Alembic initialized" None ]
     end
  ++ [ MLog "INFO" "Running DB migrations in " None ].

(** The environment in which the first check is made. *)
Definition first_check_env (e : Env) : Env :=
  match select e with
  | (None, e1) => e1
  | (Some _, e1) => snd (upgrade (snd (ensure_version e1)))
  end.

(** What happens between the two checks: nothing, unless the first check
    raised CommandError or AutogenerateDiffsDetected; then one upgrade to
    head, followed by the sleep or, when the upgrade raised, by the error
    log line that reports it. *)
Definition upgrade_step (e0 : Env) : list mevent :=
  match check e0 with
  | (None, _) => []
  | (Some x, e1) =>
      if is_command_error x then
        [ MUpgradeHead;
          match fst (upgrade e1) with
          | Some y => MLog "ERROR" "Error running migrations: " (Some y)
          | None => MSleep 3
          end ]
      else []
  end.

(** The environment in which the final check is made. *)
Definition final_check_env (e0 : Env) : Env :=
  match check e0 with
  | (None, e1) => e1
  | (Some x, e1) => if is_command_error x then snd (upgrade e1) else e1
  end.

(** The log line for the exception of the final check: only
    AutogenerateDiffsDetected and CommandError get one. *)
Definition final_log (e : Env) : list mevent :=
  match fst (check e) with
  | Some AutogenerateDiffsDetected =>
      [ MLog "INFO" "AutogenerateDiffsDetected: " (Some AutogenerateDiffsDetected) ]
  | Some CommandError => [ MLog "ERROR" "CommandError: " (Some CommandError) ]
  | _ => []
  end.

(** How the run ends: it returns unless the final check raised something
    other than those two, which is then raised. *)
Definition final_outcome (e : Env) : result unit :=
  match fst (check e) with
  | None => Ok tt
  | Some x => if is_command_error x then Ok tt else Raise x
  end.

End MigrationOutcome.

(** A set-up that fails: the log file cannot be opened. *)
Definition failing_set_up (s : schema) : option exn * schema :=
  (Some (OtherException "PermissionError"), s).

Definition working_set_up (s : schema) : option exn * schema := (None, s).

(** The link rows of the two-step workflow, in ascending [sequence_id]. *)
Definition two_step_ordered : list WorkflowAgentLink :=
  [ mkWorkflowAgentLink 1 2 "receiver" 1;
    mkWorkflowAgentLink 1 1 "sender" 2 ].

(** * Properties *)

(** ** Dictionaries *)

Lemma dict_get_set_same (k : string) (v : value) (d : dict) :
  dict_get k (dict_set k v d) = Some v.
Proof.
  induction d as [|[k' v'] d IH]; simpl.
  - now rewrite String.eqb_refl.
  - destruct (String.eqb_spec k k') as [->|Hne]; simpl.
    + now rewrite String.eqb_refl.
    + destruct (String.eqb_spec k k'); [contradiction | exact IH].
Qed.

Lemma dict_get_set_other (k k' : string) (v : value) (d : dict) :
  k <> k' -> dict_get k (dict_set k' v d) = dict_get k d.
Proof.
  intros Hne. induction d as [|[k0 v0] d IH]; simpl.
  - destruct (String.eqb_spec k k'); [contradiction | reflexivity].
  - destruct (String.eqb_spec k' k0) as [->|Hne0]; simpl.
    + destruct (String.eqb_spec k k0); [contradiction | reflexivity].
    + destruct (String.eqb_spec k k0); [reflexivity | exact IH].
Qed.

Lemma dict_get_exclude_in (exclude : list string) (k : string) (d : dict) :
  str_mem k exclude = true -> dict_get k (dict_exclude exclude d) = None.
Proof.
  intros Hin. induction d as [|[k' v'] d IH]; simpl; [reflexivity|].
  destruct (str_mem k' exclude) eqn:Hk'; simpl; [exact IH|].
  destruct (String.eqb_spec k k') as [->|_]; [congruence | exact IH].
Qed.

Lemma dict_get_exclude_out (exclude : list string) (k : string) (d : dict) :
  str_mem k exclude = false ->
  dict_get k (dict_exclude exclude d) = dict_get k d.
Proof.
  intros Hout. induction d as [|[k' v'] d IH]; simpl; [reflexivity|].
  destruct (str_mem k' exclude) eqn:Hk'; simpl.
  - destruct (String.eqb_spec k k') as [->|_]; [congruence | exact IH].
  - destruct (String.eqb_spec k k'); [reflexivity | exact IH].
Qed.


Lemma str_mem_In (k : string) (ks : list string) :
  str_mem k ks = true <-> In k ks.
Proof.
  induction ks as [|k' ks IH]; simpl.
  - split; [discriminate | tauto].
  - rewrite orb_true_iff, IH, String.eqb_eq. split; intros [H|H]; auto.
Qed.

Lemma str_mem_app (k : string) (l1 l2 : list string) :
  str_mem k (l1 ++ l2) = str_mem k l1 || str_mem k l2.
Proof.
  induction l1 as [|k' l1 IH]; simpl; [reflexivity|].
  now rewrite IH, orb_assoc.
Qed.

(** ** The monad *)

Lemma reads_only_ret {S A} (a : A) : reads_only (@ret S A a).
Proof. intros s. reflexivity. Qed.

Lemma reads_only_raise {S A} (e : exn) : reads_only (@raise S A e).
Proof. intros s. reflexivity. Qed.

Lemma reads_only_gets {S A} (f : S -> A) : reads_only (gets f).
Proof. intros s. reflexivity. Qed.

Lemma reads_only_lift {S A} (r : result A) : reads_only (@lift_result S A r).
Proof. intros s. reflexivity. Qed.

Lemma reads_only_bind {S A B} (m : M S A) (k : A -> M S B) :
  reads_only m -> (forall a, reads_only (k a)) -> reads_only (bind m k).
Proof.
  intros Hm Hk s. unfold bind. specialize (Hm s).
  destruct (m s) as [[a|e] s']; simpl in *; subst; [apply Hk | reflexivity].
Qed.

Lemma reads_only_mapM {S A B} (f : A -> M S B) (l : list A) :
  (forall x, In x l -> reads_only (f x)) -> reads_only (mapM f l).
Proof.
  induction l as [|x l IH]; intros Hf; simpl.
  - apply reads_only_ret.
  - apply reads_only_bind; [apply Hf; now left|].
    intros y. apply reads_only_bind; [apply IH; intros; apply Hf; now right|].
    intros ys. apply reads_only_ret.
Qed.

Lemma raises_only_ret {S A} (P : exn -> Prop) (a : A) :
  raises_only P (@ret S A a).
Proof. intros s e H. discriminate. Qed.

Lemma raises_only_gets {S A} (P : exn -> Prop) (f : S -> A) :
  raises_only P (gets f).
Proof. intros s e H. discriminate. Qed.

Lemma raises_only_raise {S A} (P : exn -> Prop) (e : exn) :
  P e -> raises_only P (@raise S A e).
Proof. intros HP s e' H. simpl in H. now inversion H; subst. Qed.

Lemma raises_only_bind {S A B} (P : exn -> Prop) (m : M S A) (k : A -> M S B) :
  raises_only P m -> (forall a, raises_only P (k a)) -> raises_only P (bind m k).
Proof.
  intros Hm Hk s e. unfold bind. specialize (Hm s).
  destruct (m s) as [[a|e'] s']; simpl in *.
  - apply Hk.
  - intros H. apply Hm. now inversion H.
Qed.

Lemma raises_only_mapM {S A B} (P : exn -> Prop) (f : A -> M S B) (l : list A) :
  (forall x, raises_only P (f x)) -> raises_only P (mapM f l).
Proof.
  intros Hf. induction l as [|x l IH]; simpl.
  - apply raises_only_ret.
  - apply raises_only_bind; [apply Hf|].
    intros y. apply raises_only_bind; [exact IH|].
    intros ys. apply raises_only_ret.
Qed.

(** A [mapM] over computations that read only and succeed within a relation
    succeeds, element by element. *)
Lemma mapM_Forall2 {S A B} (R : A -> B -> Prop) (f : A -> M S B)
      (l : list A) (s : S) :
  (forall x, In x l -> exists y, f x s = (Ok y, s) /\ R x y) ->
  exists ys, mapM f l s = (Ok ys, s) /\ Forall2 R l ys.
Proof.
  induction l as [|x l IH]; intros Hf; simpl.
  - exists []. split; [reflexivity | constructor].
  - destruct (Hf x (or_introl eq_refl)) as (y & Hy & HR).
    destruct IH as (ys & Hys & HRs); [intros; apply Hf; now right|].
    exists (y :: ys). unfold bind. rewrite Hy, Hys. split; [reflexivity|].
    now constructor.
Qed.

(** Conversely, the results of a successful [mapM] come from its elements. *)
Lemma mapM_Ok_Forall2 {S A B} (f : A -> M S B) (l : list A) (s : S)
      (ys : list B) :
  (forall x, reads_only (f x)) ->
  fst (mapM f l s) = Ok ys ->
  Forall2 (fun x y => fst (f x s) = Ok y) l ys.
Proof.
  intros Hro. revert ys. induction l as [|x l IH]; intros ys; simpl.
  - intros H. inversion H. constructor.
  - unfold bind. pose proof (Hro x s) as Hx.
    destruct (f x s) as [[y|e] s'] eqn:Hfx; simpl in *; [subst s'|discriminate].
    destruct (mapM f l s) as [[ys'|e] s''] eqn:Hm; simpl in *; [|discriminate].
    intros H. inversion H; subst. constructor; [now rewrite Hfx | now apply IH].
Qed.

(** ** [dump_agent] and the [config_list] step *)

Lemma dump_agent_config (a : Agent) :
  dict_get "config" (dump_agent a) = Some (VDict (agent_config a)).
Proof.
  unfold dump_agent, Agent_model_dump.
  rewrite dict_get_exclude_out; [reflexivity|].
  destruct (AgentType_eqb (agent_type a) groupchat); reflexivity.
Qed.



Lemma Model_model_dump_excluded (m : Model) (k : string) :
  In k model_exclude -> dict_get k (Model_model_dump model_exclude m) = None.
Proof.
  intros Hk. apply dict_get_exclude_in. now apply str_mem_In.
Qed.

(** What the step of lines 67-72 does to a dictionary whose [config] is a
    dictionary, when it returns. *)
Lemma set_config_list_Ok (ms : list value) (ad ad' config : dict) :
  dict_get "config" ad = Some (VDict config) ->
  set_config_list ms ad = Ok ad' ->
  (forall k, k <> "config" -> dict_get k ad' = dict_get k ad)
  /\ exists config',
      dict_get "config" ad' = Some (VDict config')
      /\ (forall k, k <> "llm_config" -> dict_get k config' = dict_get k config)
      /\ (ms = [] -> config' = config)
      /\ (ms <> [] ->
          forall v, dict_get "llm_config" config = Some v -> truthy v = true ->
          exists llm,
            dict_get "llm_config" config' = Some (VDict llm)
            /\ dict_get "config_list" llm = Some (VList ms)).
Proof.
  intros Hc. unfold set_config_list. destruct ms as [|m ms].
  - intros H. inversion H; subst ad'. split; [reflexivity|].
    exists config. repeat split; try assumption; try reflexivity.
    intros Hne. now contradiction Hne.
  - rewrite Hc.
    set (llm := match dict_get "llm_config" config with
                | Some v => v | None => VDict [] end).
    destruct (truthy llm) eqn:Ht.
    + destruct llm as [| | | | |l|] eqn:Hllm; try discriminate.
      intros H. inversion H; subst ad'. clear H. split.
      * intros k Hk. now apply dict_get_set_other.
      * eexists. split; [apply dict_get_set_same|]. split; [|split].
        -- intros k Hk. now rewrite !dict_get_set_other.
        -- discriminate.
        -- intros _ v Hv _. exists (dict_set "config_list" (VList (m :: ms)) l).
           split; [apply dict_get_set_same | apply dict_get_set_same].
    + intros H. inversion H; subst ad'. clear H. split.
      * intros k Hk. now apply dict_get_set_other.
      * eexists. split; [apply dict_get_set_same|]. split; [|split].
        -- intros k Hk. now rewrite !dict_get_set_other.
        -- discriminate.
        -- intros _ v Hv Htv. subst llm. rewrite Hv in Ht. congruence.
Qed.

(** When it returns. *)
Lemma set_config_list_returns (ms : list value) (ad config : dict) :
  dict_get "config" ad = Some (VDict config) ->
  ms = []
  \/ (let llm := match dict_get "llm_config" config with
                 | Some v => v | None => VDict [] end in
      negb (truthy llm) || is_dict llm = true) ->
  exists ad', set_config_list ms ad = Ok ad'.
Proof.
  intros Hc H. unfold set_config_list. destruct ms as [|m ms].
  - now eexists.
  - destruct H as [H|H]; [discriminate|]. rewrite Hc. cbv zeta in H.
    destruct (match dict_get "llm_config" config with
              | Some v => v | None => VDict [] end) as [|b|z|s|l|l|c l];
      simpl in *; try (eexists; reflexivity); try discriminate.
    + destruct b; [discriminate | eexists; reflexivity].
    + destruct (z =? 0); [eexists; reflexivity | discriminate].
    + destruct (s =? "")%string; [eexists; reflexivity | discriminate].
    + destruct l; [eexists; reflexivity | discriminate].
    + destruct l; eexists; reflexivity.
Qed.

(** It raises nothing but KeyError, AttributeError and TypeError. *)
Lemma set_config_list_raises (ms : list value) (ad : dict) (e : exn) :
  set_config_list ms ad = Raise e ->
  e = KeyError "config" \/ e = AttributeError \/ e = TypeError.
Proof.
  unfold set_config_list. destruct ms as [|m ms]; [discriminate|].
  destruct (dict_get "config" ad) as [[| | | | |config|]|];
    try (intros H; inversion H; auto; fail).
  destruct (truthy _); [|discriminate].
  destruct (match dict_get "llm_config" config with
            | Some v => v | None => VDict [] end);
    intros H; inversion H; auto.
Qed.

(** ** [get_agent] *)

Lemma get_agent_unfold (n : nat) (agent_id' : Z) (w : World) :
  get_agent (S n) agent_id' w =
  match agent_rows (db w) agent_id' with
  | [] => (Raise IndexError, w)
  | a :: _ =>
      match set_config_list (config_models (db w) a) (agent_base (db w) a) with
      | Raise e => (Raise e, w)
      | Ok ad =>
          match mapM (fun b => get_agent n (agent_id b)) (agents_of (db w) a) w with
          | (Ok subs, w') => (Ok (VDict (dict_set "agents" (VList subs) ad)), w')
          | (Raise e, w') => (Raise e, w')
          end
      end
  end.
Proof.
  cbn [get_agent]. unfold bind, dbmanager_get_items_Agent, gets, first_row.
  destruct (agent_rows (db w) agent_id') as [|a rest]; [reflexivity|].
  cbn [ret Agent_skills Agent_models Agent_agents gets lift_result].
  fold (agent_base (db w) a). fold (config_models (db w) a).
  destruct (set_config_list _ _); [|reflexivity].
  destruct (mapM _ _ w) as [[subs|e] w']; reflexivity.
Qed.

Lemma get_agent_reads_only (depth : nat) (agent_id' : Z) :
  reads_only (get_agent depth agent_id').
Proof.
  revert agent_id'. induction depth as [|n IH]; intros agent_id' w.
  - reflexivity.
  - rewrite get_agent_unfold.
    destruct (agent_rows (db w) agent_id') as [|a rest]; [reflexivity|].
    destruct (set_config_list _ _); [|reflexivity].
    pose proof (reads_only_mapM (fun b => get_agent n (agent_id b))
                  (agents_of (db w) a) (fun b _ => IH (agent_id b)) w) as Hm.
    destruct (mapM _ _ w) as [[subs|e] w']; exact Hm.
Qed.

Lemma get_agent_raises (depth : nat) (agent_id' : Z) :
  raises_only agent_exn (get_agent depth agent_id').
Proof.
  revert agent_id'. induction depth as [|n IH]; intros agent_id' w e.
  - simpl. intros H. inversion H. right. now left.
  - rewrite get_agent_unfold.
    destruct (agent_rows (db w) agent_id') as [|a rest].
    + simpl. intros H. inversion H. now left.
    + destruct (set_config_list _ _) as [ad|e'] eqn:Hs.
      * pose proof (raises_only_mapM agent_exn
                      (fun b => get_agent n (agent_id b)) (agents_of (db w) a)
                      (fun b => IH (agent_id b)) w e) as Hm.
        destruct (mapM _ _ w) as [[subs|e'] w']; simpl in *; [discriminate|].
        intros H. apply Hm. now inversion H.
      * simpl. intros H. inversion H; subst e'.
        apply set_config_list_raises in Hs. unfold agent_exn. tauto.
Qed.

Lemma agent_base_config (d : DB) (a : Agent) :
  dict_get "config" (agent_base d a) = Some (VDict (agent_config a)).
Proof.
  unfold agent_base.
  rewrite !dict_get_set_other by discriminate. apply dump_agent_config.
Qed.

Lemma not_added_key (k : string) :
  str_mem k added_keys = false ->
  k <> "skills" /\ k <> "models" /\ k <> "agents" /\ k <> "config".
Proof.
  unfold added_keys. simpl. rewrite !orb_false_iff, !String.eqb_neq. tauto.
Qed.

(** The dictionary [get_agent] returns, key by key. *)
Lemma agent_dict_shape (d : DB) (a : Agent) (ad : dict) (subs : list value) :
  set_config_list (config_models d a) (agent_base d a) = Ok ad ->
  let final := dict_set "agents" (VList subs) ad in
  (forall k, str_mem k added_keys = false ->
             dict_get k final = dict_get k (dump_agent a))
  /\ (exists config',
         dict_get "config" final = Some (VDict config')
         /\ (forall k, k <> "llm_config" ->
                       dict_get k config' = dict_get k (agent_config a))
         /\ (models_of d a = [] -> config' = agent_config a)
         /\ (models_of d a <> [] ->
             forall v, dict_get "llm_config" (agent_config a) = Some v ->
                       truthy v = true ->
             exists llm,
               dict_get "llm_config" config' = Some (VDict llm)
               /\ dict_get "config_list" llm = Some (VList (config_models d a))))
  /\ dict_get "skills" final
     = Some (VList (map (fun s => Skill_model_validate (Skill_model_dump s))
                        (skills_of d a)))
  /\ dict_get "models" final
     = Some (VList (map (fun m => VDict (Model_model_dump [] m)) (models_of d a)))
  /\ dict_get "agents" final = Some (VList subs).
Proof.
  intros Hs final.
  destruct (set_config_list_Ok _ _ _ _ (agent_base_config d a) Hs)
    as (Hother & config' & Hc' & Hrest & Hnil & Hcons).
  subst final. repeat split.
  - intros k Hk. apply not_added_key in Hk. destruct Hk as (H1 & H2 & H3 & H4).
    rewrite dict_get_set_other, Hother by assumption.
    unfold agent_base. now rewrite !dict_get_set_other by assumption.
  - exists config'. repeat split.
    + rewrite dict_get_set_other by discriminate. exact Hc'.
    + exact Hrest.
    + intros Hm. apply Hnil. unfold config_models. now rewrite Hm.
    + intros Hm. apply Hcons. unfold config_models.
      destruct (models_of d a); [now contradiction Hm | discriminate].
  - rewrite dict_get_set_other, Hother by discriminate.
    unfold agent_base. rewrite dict_get_set_other by discriminate.
    apply dict_get_set_same.
  - rewrite dict_get_set_other, Hother by discriminate.
    unfold agent_base. apply dict_get_set_same.
  - apply dict_get_set_same.
Qed.

Lemma Forall2_map_left {A B C} (R : B -> C -> Prop) (f : A -> B)
      (l : list A) (l' : list C) :
  Forall2 (fun x y => R (f x) y) l l' -> Forall2 R (map f l) l'.
Proof. induction 1; simpl; constructor; assumption. Qed.

(** An agent that nests within the recursion limit is returned as the
    nested agent of the specification, and nothing is written. *)
Lemma get_agent_view (depth : nat) (agent_id' : Z) (w : World) :
  nests_within (db w) depth agent_id' = true ->
  exists v, get_agent depth agent_id' w = (Ok v, w)
            /\ agent_view (db w) agent_id' v.
Proof.
  revert agent_id'. induction depth as [|n IH]; intros agent_id' Hn.
  - discriminate.
  - rewrite get_agent_unfold. cbn [nests_within] in Hn.
    destruct (agent_rows (db w) agent_id') as [|a rest] eqn:Hrows;
      [discriminate|].
    apply andb_true_iff in Hn. destruct Hn as [Hcfg Hsubs].
    destruct (set_config_list_returns (config_models (db w) a)
                (agent_base (db w) a) _ (agent_base_config (db w) a))
      as [ad Had].
    { unfold config_assignable, config_models, llm_config_of in *.
      destruct (models_of (db w) a); [now left | now right]. }
    rewrite Had.
    destruct (mapM_Forall2 (fun b v => agent_view (db w) (agent_id b) v)
                (fun b => get_agent n (agent_id b)) (agents_of (db w) a) w)
      as (subs & Hm & HF).
    { intros b Hb. apply IH. rewrite forallb_forall in Hsubs. now apply Hsubs. }
    rewrite Hm. eexists. split; [reflexivity|].
    destruct (agent_dict_shape (db w) a ad subs Had)
      as (Hk & (config' & Hc & Hrest & _) & Hsk & Hmo & Hag).
    eapply agent_view_intro; eauto using Forall2_map_left.
Qed.

(** ** Sorting on the key *)

Lemma insert_by_key_perm (k : Z) (x : value) (l : list (Z * value)) :
  Permutation (insert_by_key k x l) ((k, x) :: l).
Proof.
  induction l as [|[k' y] l IH]; simpl.
  - apply Permutation_refl.
  - destruct (k <=? k'); [apply Permutation_refl|].
    eapply perm_trans; [apply perm_skip, IH | apply perm_swap].
Qed.

Lemma sort_keyed_perm (l : list (Z * value)) : Permutation (sort_keyed l) l.
Proof.
  induction l as [|[k x] l IH]; simpl.
  - constructor.
  - eapply perm_trans; [apply insert_by_key_perm | now apply perm_skip].
Qed.

Lemma insert_by_key_sorted (k : Z) (x : value) (l : list (Z * value)) :
  StronglySorted Z.le (map fst l) ->
  StronglySorted Z.le (map fst (insert_by_key k x l)).
Proof.
  induction l as [|[k' y] l IH]; simpl; intros Hs.
  - repeat constructor.
  - apply StronglySorted_inv in Hs. destruct Hs as [Hs Hall].
    destruct (Z.leb_spec k k') as [Hle|Hgt]; simpl.
    + constructor; [now constructor|].
      constructor; [exact Hle|].
      eapply Forall_impl; [|exact Hall]. simpl. intros; lia.
    + constructor; [now apply IH|].
      apply Forall_forall. intros z Hz.
      apply (Permutation_in _ (Permutation_map fst (insert_by_key_perm k x l)))
        in Hz.
      destruct Hz as [<-|Hz]; [simpl; lia|].
      rewrite Forall_forall in Hall. now apply Hall.
Qed.

Lemma sort_keyed_sorted (l : list (Z * value)) :
  StronglySorted Z.le (map fst (sort_keyed l)).
Proof.
  induction l as [|[k x] l IH]; simpl.
  - constructor.
  - now apply insert_by_key_sorted.
Qed.

(** ** [workflow_from_id] *)

Lemma agent_entry_reads_only (limit : nat) (l : WorkflowAgentLink) :
  reads_only (agent_entry limit l).
Proof.
  apply reads_only_bind; [apply get_agent_reads_only|].
  intros v. apply reads_only_ret.
Qed.

Lemma agent_entry_raises (limit : nat) (l : WorkflowAgentLink) :
  raises_only agent_exn (agent_entry limit l).
Proof.
  apply raises_only_bind; [apply get_agent_raises|].
  intros v. apply raises_only_ret.
Qed.

Lemma agent_entry_shape (limit : nat) (l : WorkflowAgentLink) (w : World)
      (e : value) :
  fst (agent_entry limit l w) = Ok e -> entry_shape l e.
Proof.
  unfold agent_entry, bind.
  destruct (get_agent limit (wal_agent_id l) w) as [[v|x] w']; simpl;
    [|discriminate].
  intros H. inversion H. now exists v.
Qed.

Lemma entry_shape_key (l : WorkflowAgentLink) (e : value) :
  entry_shape l e -> sequence_key e = Ok (wal_sequence_id l).
Proof. intros [ag ->]. reflexivity. Qed.

Lemma entry_shape_link (l : WorkflowAgentLink) (e : value) :
  entry_shape l e -> entry_link e = link_dump l.
Proof. intros [ag ->]. reflexivity. Qed.

Lemma entries_links (links : list WorkflowAgentLink) (entries : list value) :
  Forall2 entry_shape links entries ->
  map entry_link entries = map link_dump links.
Proof.
  induction 1 as [|l e links entries He _ IH]; simpl; [reflexivity|].
  now rewrite IH, (entry_shape_link l e He).
Qed.

Lemma entries_keys {S} (links : list WorkflowAgentLink) (entries : list value)
      (s : S) :
  Forall2 entry_shape links entries ->
  mapM (fun x => lift_result (sequence_key x)) entries s
  = (Ok (map wal_sequence_id links), s).
Proof.
  induction 1 as [|l e links entries He _ IH]; simpl; [reflexivity|].
  unfold bind, lift_result at 1. rewrite (entry_shape_key l e He), IH.
  reflexivity.
Qed.

Lemma sorted_by_sequence_id_entries {S} (links : list WorkflowAgentLink)
      (entries : list value) (s : S) :
  Forall2 entry_shape links entries ->
  sorted_by_sequence_id entries s
  = (Ok (map snd (sorted_entries links entries)), s).
Proof.
  intros H. unfold sorted_by_sequence_id, bind.
  now rewrite (entries_keys links entries s H).
Qed.

Lemma combine_keys (links : list WorkflowAgentLink) (entries : list value) :
  Forall2 entry_shape links entries ->
  map snd (combine (map wal_sequence_id links) entries) = entries
  /\ Forall (fun kv => sequence_key (snd kv) = Ok (fst kv))
            (combine (map wal_sequence_id links) entries).
Proof.
  induction 1 as [|l e links entries He _ [IH1 IH2]]; simpl.
  - split; constructor.
  - split; [now rewrite IH1|].
    constructor; [now apply entry_shape_key | exact IH2].
Qed.

(** The sorted entries are the entries, in ascending key order. *)
Lemma sorted_entries_spec (links : list WorkflowAgentLink)
      (entries : list value) :
  Forall2 entry_shape links entries ->
  let sorted' := map snd (sorted_entries links entries) in
  let keys := map fst (sorted_entries links entries) in
  Permutation entries sorted'
  /\ map sequence_key sorted' = map Ok keys
  /\ StronglySorted Z.le keys.
Proof.
  intros H. destruct (combine_keys links entries H) as [Hsnd Hkeys].
  cbv zeta. unfold sorted_entries. repeat split.
  - rewrite <- Hsnd at 1. apply Permutation_map, Permutation_sym, sort_keyed_perm.
  - rewrite !map_map. apply map_ext_in. intros kv Hin.
    rewrite Forall_forall in Hkeys. apply Hkeys.
    eapply Permutation_in; [apply sort_keyed_perm | exact Hin].
  - apply sort_keyed_sorted.
Qed.

Lemma workflow_from_id_unfold (limit : nat) (workflow_id' : Z) (w : World) :
  workflow_from_id limit workflow_id' w =
  match workflow_rows (db w) workflow_id' with
  | [] => (Raise (ValueError "The specified workflow does not exist."), w)
  | w0 :: _ =>
      match mapM (agent_entry limit) (links_of_workflow (db w) workflow_id') w with
      | (Raise e, w') => (Raise e, w')
      | (Ok entries, w') =>
          match workflow_type w0 with
          | sequential =>
              match sorted_by_sequence_id entries w' with
              | (Ok sorted', w'') =>
                  (Ok (dict_set "agents" (VList sorted') (Workflow_model_dump w0)),
                   w'')
              | (Raise e, w'') => (Raise e, w'')
              end
          | autonomous =>
              (Ok (dict_set "agents" (VList entries) (Workflow_model_dump w0)), w')
          end
      end
  end.
Proof.
  unfold workflow_from_id, bind at 1, dbmanager_get_Workflow_by_id, gets at 1.
  destruct (workflow_rows (db w) workflow_id') as [|w0 rest]; [reflexivity|].
  unfold bind at 1, dbmanager_get_WorkflowAgentLink, gets.
  unfold bind at 1.
  destruct (mapM _ _ w) as [[entries|e] w']; [|reflexivity].
  unfold bind at 1. cbn [subscript Workflow_model_dump dict_get String.eqb
                         Ascii.eqb Bool.eqb ret].
  destruct (workflow_type w0); cbn; unfold bind.
  - reflexivity.
  - destruct (sorted_by_sequence_id entries w') as [[sorted'|e] w''];
      reflexivity.
Qed.

Lemma mapM_entries_shape (limit : nat) (links : list WorkflowAgentLink)
      (w : World) (entries : list value) :
  fst (mapM (agent_entry limit) links w) = Ok entries ->
  Forall2 entry_shape links entries.
Proof.
  intros H.
  apply mapM_Ok_Forall2 in H; [|intros l; apply agent_entry_reads_only].
  eapply Forall2_impl; [|exact H].
  intros l e He. eapply agent_entry_shape, He.
Qed.

(** The function, as a case analysis on what the database holds. *)
Lemma workflow_from_id_result (limit : nat) (workflow_id' : Z) (w : World) :
  workflow_from_id limit workflow_id' w =
  match workflow_rows (db w) workflow_id' with
  | [] => (Raise missing_workflow, w)
  | w0 :: _ =>
      let links := links_of_workflow (db w) workflow_id' in
      match fst (mapM (agent_entry limit) links w) with
      | Raise e => (Raise e, w)
      | Ok entries =>
          (Ok (dict_set "agents"
                 (VList (arranged (workflow_type w0) links entries))
                 (Workflow_model_dump w0)), w)
      end
  end.
Proof.
  rewrite workflow_from_id_unfold.
  destruct (workflow_rows (db w) workflow_id') as [|w0 rest]; [reflexivity|].
  cbv zeta.
  pose proof (reads_only_mapM (agent_entry limit)
                (links_of_workflow (db w) workflow_id')
                (fun l _ => agent_entry_reads_only limit l) w) as Hro.
  pose proof (mapM_entries_shape limit (links_of_workflow (db w) workflow_id') w)
    as Hshape.
  destruct (mapM _ _ w) as [[entries|e] w']; simpl in *; subst w';
    [|reflexivity].
  specialize (Hshape entries eq_refl).
  destruct (workflow_type w0); simpl; [reflexivity|].
  now rewrite (sorted_by_sequence_id_entries _ _ w Hshape).
Qed.

Lemma workflow_rows_nil (d : DB) (workflow_id' : Z) :
  workflow_rows d workflow_id' = [] <-> no_workflow_row d workflow_id'.
Proof.
  unfold workflow_rows, no_workflow_row. split.
  - intros H r Hin Heq.
    assert (Hr : In r (filter (fun r => workflow_id r =? workflow_id')
                              (workflows d))).
    { apply filter_In. split; [exact Hin | now apply Z.eqb_eq]. }
    rewrite H in Hr. exact Hr.
  - intros H. destruct (filter _ _) as [|r rest] eqn:Hf; [reflexivity|].
    assert (Hr : In r (filter (fun r => workflow_id r =? workflow_id')
                              (workflows d))) by (rewrite Hf; now left).
    apply filter_In in Hr. destruct Hr as [Hin Heq].
    apply Z.eqb_eq in Heq. now destruct (H r Hin).
Qed.

Lemma workflow_rows_head (d : DB) (workflow_id' : Z) (w0 : Workflow)
      (rest : list Workflow) :
  workflow_rows d workflow_id' = w0 :: rest ->
  In w0 (workflows d) /\ workflow_id w0 = workflow_id'.
Proof.
  intros H.
  assert (Hr : In w0 (workflow_rows d workflow_id')) by (rewrite H; now left).
  apply filter_In in Hr. now rewrite Z.eqb_eq in Hr.
Qed.

Lemma mapM_entries_raises (limit : nat) (links : list WorkflowAgentLink) :
  raises_only agent_exn (mapM (agent_entry limit) links).
Proof. apply raises_only_mapM. intros l. apply agent_entry_raises. Qed.

(** C7: when no Workflow row has the id, [workflow_from_id] raises
    ValueError("The specified workflow does not exist."), and that is the
    only case in which it raises a ValueError; whatever it does, it leaves
    the database (and the session and the trace) as they were. *)
Theorem workflow_from_id_missing (limit : nat) (workflow_id' : Z) (w : World) :
  (no_workflow_row (db w) workflow_id' <->
   fst (workflow_from_id limit workflow_id' w)
   = Raise (ValueError "The specified workflow does not exist."))
  /\ (forall msg,
         fst (workflow_from_id limit workflow_id' w) = Raise (ValueError msg) ->
         no_workflow_row (db w) workflow_id')
  /\ snd (workflow_from_id limit workflow_id' w) = w.
Proof.
  rewrite workflow_from_id_result.
  pose proof (workflow_rows_nil (db w) workflow_id') as Hnil.
  destruct (workflow_rows (db w) workflow_id') as [|w0 rest]; cbv zeta.
  - repeat split; intros; try reflexivity; now apply Hnil.
  - assert (Hrow : ~ no_workflow_row (db w) workflow_id').
    { intros H. apply Hnil in H. discriminate. }
    pose proof (mapM_entries_raises limit
                  (links_of_workflow (db w) workflow_id') w) as Hr.
    destruct (fst (mapM _ _ w)) as [entries|e]; simpl.
    + repeat split; intros; try discriminate; contradiction.
    + assert (Hne : forall msg, e <> ValueError msg).
      { intros msg ->. destruct (Hr _ eq_refl) as [H|[H|[H|[H|H]]]];
          discriminate. }
      repeat split; try contradiction.
      * intros H. inversion H. now destruct (Hne _ H1).
      * intros msg H. inversion H. now destruct (Hne _ H1).
Qed.

Lemma workflow_dump_type (w0 : Workflow) (entries : list value) :
  dict_get "type" (dict_set "agents" (VList entries) (Workflow_model_dump w0))
  = Some (VStr (WorkFlowType_value (workflow_type w0))).
Proof. rewrite dict_get_set_other by discriminate. reflexivity. Qed.

(** The sort, seen on the link rows: inserting the entry of a link into
    sorted entries of links gives the entries of links, still in step. *)
Lemma insert_by_key_links (l : WorkflowAgentLink) (e : value)
      (sorted' : list (Z * value)) (ls : list WorkflowAgentLink) :
  entry_shape l e ->
  Forall2 entry_shape ls (map snd sorted') ->
  map fst sorted' = map wal_sequence_id ls ->
  exists ls',
    Permutation ls' (l :: ls)
    /\ Forall2 entry_shape ls'
               (map snd (insert_by_key (wal_sequence_id l) e sorted'))
    /\ map fst (insert_by_key (wal_sequence_id l) e sorted')
       = map wal_sequence_id ls'.
Proof.
  intros He. revert ls.
  induction sorted' as [|[k y] sorted' IH]; intros ls HF Hk.
  - destruct ls; [|inversion HF]. exists [l]. cbn. repeat split.
    + apply Permutation_refl.
    + now constructor.
  - destruct ls as [|l0 ls]; [inversion HF|].
    cbn [map fst snd] in HF, Hk. inversion HF as [|? ? ? ? He0 HF']; subst.
    injection Hk as Hk0 Hk.
    cbn [insert_by_key]. destruct (wal_sequence_id l <=? k).
    + exists (l :: l0 :: ls). cbn [map fst snd]. repeat split.
      * apply Permutation_refl.
      * constructor; [exact He|]. now constructor.
      * now rewrite Hk0, Hk.
    + destruct (IH ls HF' Hk) as (ls' & Hperm & HF'' & Hk'').
      exists (l0 :: ls'). cbn [map fst snd]. repeat split.
      * eapply perm_trans; [apply perm_skip, Hperm | apply perm_swap].
      * now constructor.
      * now rewrite Hk0, Hk''.
Qed.

Lemma sorted_entries_links (links : list WorkflowAgentLink)
      (entries : list value) :
  Forall2 entry_shape links entries ->
  exists ordered,
    Permutation ordered links
    /\ Forall2 entry_shape ordered (map snd (sorted_entries links entries))
    /\ StronglySorted Z.le (map wal_sequence_id ordered).
Proof.
  intros Hshape.
  assert (H : exists ordered,
             Permutation ordered links
             /\ Forall2 entry_shape ordered
                        (map snd (sorted_entries links entries))
             /\ map fst (sorted_entries links entries)
                = map wal_sequence_id ordered).
  { unfold sorted_entries.
    induction Hshape as [|l e links entries He _ IH].
    - exists []. repeat split; constructor.
    - destruct IH as (ls & Hperm & HF & Hk).
      cbn [map combine sort_keyed fold_right fst snd].
      fold (sort_keyed (combine (map wal_sequence_id links) entries)).
      destruct (insert_by_key_links l e _ ls He HF Hk)
        as (ls' & Hperm' & HF' & Hk').
      exists ls'. repeat split; try assumption.
      eapply perm_trans; [exact Hperm' | now apply perm_skip]. }
  destruct H as (ordered & Hperm & HF & Hk).
  exists ordered. repeat split; try assumption.
  rewrite <- Hk. apply sort_keyed_sorted.
Qed.

(** C8: in the value returned, when the workflow's type is "sequential"
    the ["agents"] list holds the entries of the workflow's link rows
    rearranged into ascending order of the rows' [sequence_id] (and the
    key the code sorts on, [x["link"]["sequence_id"]], is that
    [sequence_id]); for every other type the list holds the entries of the
    link rows in the order in which the rows were returned. *)
Theorem workflow_from_id_agents_order (limit : nat) (workflow_id' : Z)
        (w : World) (wf : dict) :
  fst (workflow_from_id limit workflow_id' w) = Ok wf ->
  let links := links_of_workflow (db w) workflow_id' in
  exists entries,
    dict_get "agents" wf = Some (VList entries)
    /\ (dict_get "type" wf = Some (VStr "sequential") ->
        exists ordered,
          Permutation ordered links
          /\ StronglySorted Z.le (map wal_sequence_id ordered)
          /\ Forall2 entry_shape ordered entries
          /\ map entry_link entries = map link_dump ordered
          /\ map sequence_key entries
             = map (fun l => Ok (wal_sequence_id l)) ordered)
    /\ (dict_get "type" wf <> Some (VStr "sequential") ->
        Forall2 entry_shape links entries
        /\ map entry_link entries = map link_dump links).
Proof.
  rewrite workflow_from_id_result.
  destruct (workflow_rows (db w) workflow_id') as [|w0 rest]; [discriminate|].
  cbv zeta.
  pose proof (mapM_entries_shape limit
                (links_of_workflow (db w) workflow_id') w) as Hshape.
  destruct (fst (mapM _ _ w)) as [entries|e]; [|discriminate].
  specialize (Hshape entries eq_refl).
  cbn [fst]. intros H. apply (f_equal (result_or [])) in H.
  cbn [result_or] in H. subst wf.
  exists (arranged (workflow_type w0)
                   (links_of_workflow (db w) workflow_id') entries).
  rewrite dict_get_set_same, workflow_dump_type.
  split; [reflexivity|].
  destruct (workflow_type w0); simpl; split.
  - discriminate.
  - intros _. split; [exact Hshape | now apply entries_links].
  - intros _.
    destruct (sorted_entries_links _ _ Hshape) as (ordered & Hperm & HF & Hs).
    exists ordered. repeat split; try assumption.
    + now apply entries_links.
    + clear - HF. induction HF as [|l e ls es He _ IH]; [reflexivity|].
      cbn [map]. now rewrite IH, (entry_shape_key l e He).
  - intros H. now contradiction H.
Qed.

Lemma workflow_from_id_agents_order_witness :
  exists entries,
    dict_get "agents" two_step_sorted = Some (VList entries)
    /\ (dict_get "type" two_step_sorted = Some (VStr "sequential") ->
        exists ordered,
          Permutation ordered
            (links_of_workflow (db (world_of (two_step_db sequential))) 1)
          /\ StronglySorted Z.le (map wal_sequence_id ordered)
          /\ Forall2 entry_shape ordered entries
          /\ map entry_link entries = map link_dump ordered
          /\ map sequence_key entries
             = map (fun l => Ok (wal_sequence_id l)) ordered)
    /\ (dict_get "type" two_step_sorted <> Some (VStr "sequential") ->
        Forall2 entry_shape
                (links_of_workflow (db (world_of (two_step_db sequential))) 1)
                entries
        /\ map entry_link entries
           = map link_dump
                 (links_of_workflow (db (world_of (two_step_db sequential))) 1)).
Proof.
  apply (workflow_from_id_agents_order 1 1 (world_of (two_step_db sequential))
           two_step_sorted).
  reflexivity.
Defined.

(** On the sequential two-step workflow the entries are those of the link
    rows with [sequence_id] 1 and 2, in that order, the reverse of the
    rows' order. *)
Example two_step_sequential_links :
  map entry_link
      (match dict_get "agents" two_step_sorted with
       | Some (VList l) => l
       | _ => []
       end)
  = map link_dump two_step_ordered
  /\ links_of_workflow (db (world_of (two_step_db sequential))) 1
     = rev two_step_ordered.
Proof. split; reflexivity. Qed.

(** On the two sample workflows: the sequential one lists the link with
    [sequence_id] 1 first, the autonomous one keeps the rows' order. *)
Example two_step_sequential_order :
  map sequence_key
      (match dict_get "agents" two_step_sorted with
       | Some (VList l) => l
       | _ => []
       end)
  = [Ok 1; Ok 2].
Proof. reflexivity. Qed.

Example two_step_autonomous_order :
  match fst (workflow_from_id 1 1 (world_of (two_step_db autonomous))) with
  | Ok wf =>
      match dict_get "agents" wf with
      | Some (VList l) => map sequence_key l
      | _ => []
      end
  | Raise _ => []
  end = [Ok 2; Ok 1].
Proof. reflexivity. Qed.

(** ** The nested workflow *)

Lemma agent_entry_view (limit : nat) (l : WorkflowAgentLink) (w : World) :
  nests_within (db w) limit (wal_agent_id l) = true ->
  exists e, agent_entry limit l w = (Ok e, w) /\ entry_of_link (db w) l e.
Proof.
  intros Hn. destruct (get_agent_view limit _ w Hn) as (ag & Hag & Hview).
  eexists. unfold agent_entry, bind. rewrite Hag. split; [reflexivity|].
  now exists ag.
Qed.

Lemma entry_of_link_shape (d : DB) (l : WorkflowAgentLink) (e : value) :
  entry_of_link d l e -> entry_shape l e.
Proof. intros (ag & He & _). now exists ag. Qed.

(** C1, as amended: when a Workflow row has the id and every agent linked
    to the workflow exists and nests (with an [llm_config] that can take
    [config_list]) within the recursion limit, [workflow_from_id] returns
    the dump of the first such row with ["agents"] set to a list that holds,
    for every link row of the workflow, one entry: the link's dump under
    "link" and, under "agent", the agent's dump extended with its skills,
    its models and its sub-agents built the same way.  Nothing is written. *)
Theorem workflow_from_id_graph (limit : nat) (workflow_id' : Z) (w : World) :
  (exists r, In r (workflows (db w)) /\ workflow_id r = workflow_id') ->
  (forall l, In l (links_of_workflow (db w) workflow_id') ->
             nests_within (db w) limit (wal_agent_id l) = true) ->
  exists w0 entries per_link,
    In w0 (workflows (db w)) /\ workflow_id w0 = workflow_id'
    /\ workflow_from_id limit workflow_id' w
       = (Ok (dict_set "agents" (VList entries) (Workflow_model_dump w0)), w)
    /\ Permutation per_link entries
    /\ Forall2 (entry_of_link (db w))
               (links_of_workflow (db w) workflow_id') per_link.
Proof.
  intros (r & Hin & Hid) Hnest. rewrite workflow_from_id_result.
  destruct (workflow_rows (db w) workflow_id') as [|w0 rest] eqn:Hrows.
  { apply workflow_rows_nil in Hrows. now destruct (Hrows r Hin). }
  destruct (workflow_rows_head _ _ _ _ Hrows) as [Hin0 Hid0].
  destruct (mapM_Forall2 (entry_of_link (db w)) (agent_entry limit)
              (links_of_workflow (db w) workflow_id') w)
    as (per_link & Hm & HF).
  { intros l Hl. apply agent_entry_view. now apply Hnest. }
  cbv zeta. rewrite Hm. cbn [fst].
  exists w0. eexists. exists per_link.
  repeat split; try eassumption.
  assert (Hshape : Forall2 entry_shape
                     (links_of_workflow (db w) workflow_id') per_link).
  { eapply Forall2_impl; [|exact HF]. apply entry_of_link_shape. }
  destruct (workflow_type w0); simpl; [apply Permutation_refl|].
  apply (sorted_entries_spec _ _ Hshape).
Qed.

(** The seeded travel workflow: a user proxy and a group chat of four. *)
Lemma workflow_from_id_graph_witness :
  exists w0 entries per_link,
    In w0 (workflows (db seeded_world)) /\ workflow_id w0 = 1
    /\ workflow_from_id 2 1 seeded_world
       = (Ok (dict_set "agents" (VList entries) (Workflow_model_dump w0)),
          seeded_world)
    /\ Permutation per_link entries
    /\ Forall2 (entry_of_link (db seeded_world))
               (links_of_workflow (db seeded_world) 1) per_link.
Proof.
  apply (workflow_from_id_graph 2 1 seeded_world).
  - exists (mkWorkflow 1 "Travel Planning Workflow" autonomous
                       travel_workflow_cols).
    split; [left; reflexivity | reflexivity].
  - intros l Hl. vm_compute in Hl.
    destruct Hl as [<-|[<-|[]]]; vm_compute; reflexivity.
Defined.

Lemma get_agent_cyclic (limit : nat) :
  get_agent limit 1 (world_of cyclic_db)
  = (Raise RecursionError, world_of cyclic_db).
Proof.
  induction limit as [|n IH]; [reflexivity|].
  rewrite get_agent_unfold.
  change (agent_rows (db (world_of cyclic_db)) 1)
    with [mkAgent 1 assistant [("llm_config", VDict [])] []].
  cbv iota.
  change (agents_of (db (world_of cyclic_db))
            (mkAgent 1 assistant [("llm_config", VDict [])] []))
    with [mkAgent 1 assistant [("llm_config", VDict [])] []].
  cbn [mapM agent_id]. unfold bind at 1. rewrite IH. reflexivity.
Qed.

(** C1 fails as stated: a Workflow row exists, yet no recursion limit lets
    the call return when an agent is its own sub-agent; the call raises
    IndexError when a link's agent row is missing and TypeError when an
    agent with a model has [llm_config = True]; and when it does return,
    the agent's [config.llm_config] can hold a [config_list] that the
    agent's dump does not have. *)
Lemma workflow_from_id_graph_counterexample :
  (In (mkWorkflow 1 "w" autonomous []) (workflows cyclic_db)
   /\ forall limit,
        fst (workflow_from_id limit 1 (world_of cyclic_db))
        = Raise RecursionError)
  /\ (In (mkWorkflow 1 "w" autonomous []) (workflows dangling_db)
      /\ forall limit,
           fst (workflow_from_id (S limit) 1 (world_of dangling_db))
           = Raise IndexError)
  /\ (In (mkWorkflow 1 "w" autonomous []) (workflows (llm_db (VBool true)))
      /\ forall limit,
           fst (workflow_from_id (S limit) 1 (world_of (llm_db (VBool true))))
           = Raise TypeError)
  /\ (forall limit,
        fst (workflow_from_id (S limit) 1 (world_of (llm_db temperature_config)))
        = Ok llm_workflow_dict)
  /\ dict_get "config"
       (Agent_model_dump [] (mkAgent 1 assistant
                                     [("llm_config", temperature_config)] []))
     = Some (VDict [("llm_config", temperature_config)])
  /\ match llm_agent_dict with
     | VDict ad => dict_get "config" ad
     | _ => None
     end
     = Some (VDict [("llm_config",
                     VDict [("temperature", VInt 0);
                            ("config_list",
                             VList [VDict [("model", VStr "gpt-4")]])])])
  /\ dict_get "agents" llm_workflow_dict
     = Some (VList [VDict [("agent", llm_agent_dict);
                           ("link",
                            VDict (WorkflowAgentLink_model_dump
                                     (mkWorkflowAgentLink 1 1 "sender" 0)))]]).
Proof.
  split; [split; [now left|]|].
  { intros limit. rewrite workflow_from_id_result.
    change (workflow_rows (db (world_of cyclic_db)) 1)
      with [mkWorkflow 1 "w" autonomous []].
    change (links_of_workflow (db (world_of cyclic_db)) 1)
      with [mkWorkflowAgentLink 1 1 "sender" 0].
    cbv zeta iota. cbn [mapM]. unfold bind at 1, agent_entry at 1, bind at 1.
    cbn [wal_agent_id]. rewrite get_agent_cyclic. reflexivity. }
  split; [split; [now left|]|].
  { intros limit. reflexivity. }
  split; [split; [now left|]|].
  { intros limit. reflexivity. }
  split.
  { intros limit. reflexivity. }
  repeat split.
Qed.

(** ** The agent dictionaries *)





(** The model of that agent has the keys id and model; its entry in
    [config_list] has lost id and kept model. *)
Example llm_agent_config_list_keys :
  Model_model_dump [] (mkModel 1 [("model", VStr "gpt-4")])
  = [("id", VInt 1); ("model", VStr "gpt-4")]
  /\ match llm_agent_dict with
     | VDict ad =>
         match dict_get "config" ad with
         | Some (VDict config) =>
             match dict_get "llm_config" config with
             | Some (VDict llm) => dict_get "config_list" llm
             | _ => None
             end
         | _ => None
         end
     | _ => None
     end
     = Some (VList [VDict [("model", VStr "gpt-4")]]).
Proof. split; reflexivity. Qed.

(** The [config_list] of that agent, and the falsy [llm_config] of the
    seeded group chat agent, which stays as it is although a model is
    linked. *)
Example llm_agent_config_list :
  match llm_agent_dict with
  | VDict ad =>
      match dict_get "config" ad with
      | Some (VDict config) => dict_get "llm_config" config
      | _ => None
      end
  | _ => None
  end
  = Some (VDict [ ("temperature", VInt 0);
                  ("config_list", VList [VDict [("model", VStr "gpt-4")]]) ]).
Proof. reflexivity. Qed.

Example seeded_groupchat_llm_config :
  match fst (get_agent 2 3 seeded_world) with
  | Ok (VDict ad) =>
      match dict_get "config" ad with
      | Some (VDict config) => dict_get "llm_config" config
      | _ => None
      end
  | _ => None
  end
  = Some (VDict []).
Proof. vm_compute. reflexivity. Qed.

(** ** [init_db_samples] *)

(** The net effect of the body of the session block. *)
Lemma seed_rows_and_links_run (pdf img sys : string) (d : DB)
      (ev : list event) :
  seed_rows_and_links pdf img sys (mkWorld d empty_db ev)
  = (Ok tt,
     mkWorld (db_append d (seed_of pdf img sys d)) empty_db
             (ev ++ seed_events_of d)).
Proof.
  unfold seed_rows_and_links.
  cbv [bind session_add_Model session_add_Skill session_add_Agent
       session_add_Workflow session_commit dbmanager_link modify logger_info
       emit snd fst db pending events].
  cbv [db_append no_links empty_db models skills agents workflows
       agent_model_links agent_skill_links agent_links workflow_agent_links
       link_rows next_id seed_of seed_db seed_events_of seed_events seed_adds
       seed_links].
  cbn [String.eqb Ascii.eqb Bool.eqb app List.length Z.of_nat
       Pos.of_succ_nat Pos.succ].
  rewrite !app_nil_r, <- !app_assoc. cbn [app]. reflexivity.
Qed.

Lemma init_db_samples_seeds (pdf img sys : string) (w : World) :
  already_initialized (workflows (db w)) = false ->
  init_db_samples pdf img sys w
  = (Ok tt,
     mkWorld (db_append (db w) (seed_of pdf img sys (db w))) empty_db
             (events w
              ++ [ EvLog "INFO"
                     "Initializing database with Default and Travel Planning Workflows";
                   EvSessionOpen ]
              ++ seed_events_of (db w) ++ [EvSessionClose])).
Proof.
  intros Hinit. unfold init_db_samples, bind at 1, dbmanager_get_Workflow, gets.
  rewrite Hinit.
  unfold bind at 1, logger_info at 1, emit, modify.
  unfold bind at 1, session_open, modify. cbn [db events pending].
  unfold bind. rewrite seed_rows_and_links_run.
  unfold session_close, modify. cbn [db events pending].
  now rewrite <- !app_assoc.
Qed.

Lemma init_db_samples_skips (pdf img sys : string) (w : World) :
  already_initialized (workflows (db w)) = true ->
  init_db_samples pdf img sys w
  = (Ok tt,
     mkWorld (db w) (pending w)
             (events w
              ++ [ EvLog "INFO"
                     "Database already initialized with Default and Travel Planning Workflows" ])).
Proof.
  intros Hinit. unfold init_db_samples, bind at 1, dbmanager_get_Workflow, gets.
  now rewrite Hinit.
Qed.

Lemma seeded_is_initialized (pdf img sys : string) (d : DB) :
  already_initialized (workflows (db_append d (seed_of pdf img sys d))) = true.
Proof.
  unfold already_initialized. cbn [db_append workflows seed_of seed_db].
  rewrite map_app, !str_mem_app. cbn [map workflow_name].
  apply andb_true_iff. split; apply orb_true_iff; right; reflexivity.
Qed.

(** C4: on a first run (the two sentinel workflow names are not both
    present) [init_db_samples] adds, in one session that is committed once,
    4 Model rows, 2 Skill rows, 6 Agent rows and 2 Workflow rows, and after
    the commit creates 5 agent_model, 1 agent_skill, 4 agent_agent and 4
    workflow_agent links: a sender and a receiver for each of the two new
    workflows. *)
Theorem init_db_samples_first_run (pdf img sys : string) (w : World) :
  already_initialized (workflows (db w)) = false ->
  let r := init_db_samples pdf img sys w in
  let d := db w in
  let d' := db (snd r) in
  fst r = Ok tt
  /\ (List.length (models d') = List.length (models d) + 4
      /\ List.length (skills d') = List.length (skills d) + 2
      /\ List.length (agents d') = List.length (agents d) + 6
      /\ List.length (workflows d') = List.length (workflows d) + 2)%nat
  /\ (List.length (agent_model_links d') = List.length (agent_model_links d) + 5
      /\ List.length (agent_skill_links d')
         = List.length (agent_skill_links d) + 1
      /\ List.length (agent_links d') = List.length (agent_links d) + 4
      /\ List.length (workflow_agent_links d')
         = List.length (workflow_agent_links d) + 4)%nat
  /\ (exists adds links,
         events (snd r)
         = (events w
            ++ [ EvLog "INFO"
                   "Initializing database with Default and Travel Planning Workflows";
                 EvSessionOpen ]
            ++ adds ++ [EvCommit] ++ links
            ++ [ EvLog "INFO"
                   "Successfully initialized database with Default and Travel Planning Workflows";
                 EvSessionClose ])%list
         /\ forallb is_add adds = true /\ List.length adds = 14%nat
         /\ forallb is_link links = true /\ List.length links = 14%nat
         /\ count_if (is_link_of_type "agent_model") links = 5%nat
         /\ count_if (is_link_of_type "agent_skill") links = 1%nat
         /\ count_if (is_link_of_type "agent_agent") links = 4%nat
         /\ count_if (is_link_of_type "workflow_agent") links = 4%nat)
  /\ (exists travel default user_proxy default_assistant travel_groupchat,
         workflows d'
         = (workflows d
            ++ [ mkWorkflow travel "Travel Planning Workflow" autonomous
                            travel_workflow_cols;
                 mkWorkflow default "Default Workflow" autonomous
                            default_workflow_cols ])%list
         /\ workflow_agent_links d'
            = (workflow_agent_links d
               ++ [ mkWorkflowAgentLink default user_proxy "sender" 0;
                    mkWorkflowAgentLink default default_assistant "receiver" 0;
                    mkWorkflowAgentLink travel user_proxy "sender" 0;
                    mkWorkflowAgentLink travel travel_groupchat "receiver" 0 ])%list).
Proof.
  intros Hinit. cbv zeta. rewrite (init_db_samples_seeds pdf img sys w Hinit).
  cbn [fst snd db events db_append seed_of seed_db models skills agents
       workflows agent_model_links agent_skill_links agent_links
       workflow_agent_links].
  rewrite !length_app. cbn [List.length].
  split; [reflexivity|]. split; [repeat split|]. split; [repeat split|].
  split.
  - eexists (seed_adds _ _ _ _), (seed_links _ _ _ _).
    split; [|repeat split].
    unfold seed_events_of, seed_events. now rewrite <- !app_assoc.
  - do 5 eexists. split; reflexivity.
Qed.

(** Seeding the empty database. *)
Lemma init_db_samples_first_run_witness :
  already_initialized (workflows (db (world_of empty_db))) = false
  /\ fst (init_db_samples "pdf" "images" "assistant" (world_of empty_db)) = Ok tt
  /\ List.length
       (models (db (snd (init_db_samples "pdf" "images" "assistant"
                                         (world_of empty_db))))) = 4%nat.
Proof.
  split; [reflexivity|].
  pose proof (init_db_samples_first_run "pdf" "images" "assistant"
                (world_of empty_db) eq_refl) as (H1 & (H2 & _) & _).
  split; [exact H1 | exact H2].
Defined.

(** C2: when workflows named "Default Workflow" and "Travel Planning
    Workflow" are both present the call returns without touching the
    database or the session; after any call both are present, so a second
    call is a no-op on the database. *)
Theorem init_db_samples_idempotent (pdf img sys : string) (w : World) :
  (already_initialized (workflows (db w)) = true ->
   fst (init_db_samples pdf img sys w) = Ok tt
   /\ db (snd (init_db_samples pdf img sys w)) = db w
   /\ pending (snd (init_db_samples pdf img sys w)) = pending w)
  /\ (let w1 := snd (init_db_samples pdf img sys w) in
      fst (init_db_samples pdf img sys w) = Ok tt
      /\ already_initialized (workflows (db w1)) = true
      /\ fst (init_db_samples pdf img sys w1) = Ok tt
      /\ db (snd (init_db_samples pdf img sys w1)) = db w1).
Proof.
  split.
  - intros Hinit. now rewrite (init_db_samples_skips pdf img sys w Hinit).
  - cbv zeta.
    assert (H1 : fst (init_db_samples pdf img sys w) = Ok tt
                 /\ already_initialized
                      (workflows (db (snd (init_db_samples pdf img sys w))))
                    = true).
    { destruct (already_initialized (workflows (db w))) eqn:Hinit.
      - now rewrite (init_db_samples_skips pdf img sys w Hinit).
      - rewrite (init_db_samples_seeds pdf img sys w Hinit).
        split; [reflexivity | apply seeded_is_initialized]. }
    destruct H1 as [H1 H2]. split; [exact H1|]. split; [exact H2|].
    now rewrite (init_db_samples_skips pdf img sys _ H2).
Qed.

(** A second call on the seeded database. *)
Lemma init_db_samples_idempotent_witness :
  already_initialized (workflows (db seeded_world)) = true
  /\ fst (init_db_samples "pdf" "images" "assistant" seeded_world) = Ok tt
  /\ db (snd (init_db_samples "pdf" "images" "assistant" seeded_world))
     = db seeded_world
  /\ pending (snd (init_db_samples "pdf" "images" "assistant" seeded_world))
     = pending seeded_world.
Proof.
  split; [reflexivity|].
  apply (proj1 (init_db_samples_idempotent "pdf" "images" "assistant"
                  seeded_world)).
  reflexivity.
Defined.

(** A database that holds only one of the two names is seeded again. *)
Example init_db_samples_partial :
  List.length
    (workflows
       (db (snd (init_db_samples "pdf" "images" "assistant"
                   (world_of (mkDB [] [] []
                                   [mkWorkflow 1 "Default Workflow" autonomous []]
                                   [] [] [] []))))))
  = 3%nat.
Proof. reflexivity. Qed.

Lemma workflow_from_id_missing_witness :
  fst (workflow_from_id 1 1 (world_of empty_db))
  = Raise (ValueError "The specified workflow does not exist.")
  /\ snd (workflow_from_id 1 1 (world_of empty_db)) = world_of empty_db.
Proof.
  destruct (workflow_from_id_missing 1 1 (world_of empty_db))
    as (Hiff & _ & Hsnd).
  split; [|exact Hsnd].
  apply (proj1 Hiff). intros r [].
Defined.

(** ** [run_migration] *)

Section MigrationProperties.

Variable Env : Type.
Variables select ensure_version upgrade check : Env -> option exn * Env.

Abbreviation run := (run_migration Env select ensure_version upgrade check).
Abbreviation world := (MWorld Env).
Abbreviation init_fails := (initialization_fails Env select ensure_version upgrade).

Lemma check_initialized_run (w : world) :
  check_initialized Env select w =
  match select (env w) with
  | (None, e1) =>
      (Ok false,
       mkMWorld e1 (trace w ++ [ MSelectVersion;
                                 MLog "INFO" "Alembic already initialized" None ]))
  | (Some _, e1) =>
      (Ok true,
       mkMWorld e1 (trace w ++ [ MSelectVersion;
                                 MLog "INFO" "Alembic not initialized" None ]))
  end.
Proof.
  unfold check_initialized, try_except_else, call.
  destruct (select (env w)) as [[x|] e1]; cbn; now rewrite <- app_assoc.
Qed.

Lemma initialize_alembic_run (w : world) :
  initialize_alembic Env ensure_version upgrade w =
  match ensure_version (env w) with
  | (Some x, e1) =>
      (Raise (RuntimeError "Error initializing alembic"),
       mkMWorld e1 (trace w ++ [ MLog "INFO" "Initializing alembic" None;
                                 MEnsureVersion;
                                 MLog "ERROR" "Error initializing alembic: "
                                      (Some x) ]))
  | (None, e1) =>
      match upgrade e1 with
      | (Some x, e2) =>
          (Raise (RuntimeError "Error initializing alembic"),
           mkMWorld e2 (trace w ++ [ MLog "INFO" "Initializing alembic" None;
                                     MEnsureVersion; MUpgradeHead;
                                     MLog "ERROR" "Error initializing alembic: "
                                          (Some x) ]))
      | (None, e2) =>
          (Ok tt,
           mkMWorld e2 (trace w ++ [ MLog "INFO" "Initializing alembic" None;
                                     MEnsureVersion; MUpgradeHead;
                                     MLog "INFO" "Alembic initialized" None ]))
      end
  end.
Proof.
  unfold initialize_alembic, try_except, bind, call, record, modify, raise.
  cbn [env trace].
  destruct (ensure_version (env w)) as [[x|] e1]; cbn [env trace].
  - now rewrite <- !app_assoc.
  - destruct (upgrade e1) as [[x|] e2]; cbn [env trace];
      now rewrite <- !app_assoc.
Qed.

Lemma check_and_upgrade_run (w : world) :
  check_and_upgrade Env upgrade check w =
  match check (env w) with
  | (None, e1) =>
      (Ok tt, mkMWorld e1 (trace w ++ [MWrite "Checking migrations"; MCheck]))
  | (Some x, e1) =>
      if is_command_error x then
        match upgrade e1 with
        | (None, e2) =>
            (Ok tt,
             mkMWorld e2 (trace w ++ [ MWrite "Checking migrations"; MCheck;
                                       MUpgradeHead; MSleep 3 ]))
        | (Some y, e2) =>
            (Ok tt,
             mkMWorld e2 (trace w ++ [ MWrite "Checking migrations"; MCheck;
                                       MUpgradeHead;
                                       MLog "ERROR" "Error running migrations: "
                                            (Some y) ]))
        end
      else
        (Ok tt, mkMWorld e1 (trace w ++ [MWrite "Checking migrations"; MCheck]))
  end.
Proof.
  unfold check_and_upgrade, try_except, bind, call, record, modify, ret.
  cbn [env trace].
  destruct (check (env w)) as [[x|] e1]; cbn [env trace].
  - destruct (is_command_error x); cbn [env trace].
    + destruct (upgrade e1) as [[y|] e2]; cbn [env trace];
        now rewrite <- !app_assoc.
    + now rewrite <- !app_assoc.
  - now rewrite <- !app_assoc.
Qed.

Lemma final_check_run (w : world) :
  final_check Env check w =
  match check (env w) with
  | (None, e1) =>
      (Ok tt, mkMWorld e1 (trace w ++ [MWrite "Checking migrations"; MCheck]))
  | (Some x, e1) =>
      match x with
      | AutogenerateDiffsDetected =>
          (Ok tt,
           mkMWorld e1 (trace w ++ [ MWrite "Checking migrations"; MCheck;
                                     MLog "INFO" "AutogenerateDiffsDetected: "
                                          (Some x) ]))
      | CommandError =>
          (Ok tt,
           mkMWorld e1 (trace w ++ [ MWrite "Checking migrations"; MCheck;
                                     MLog "ERROR" "CommandError: " (Some x) ]))
      | _ =>
          (Raise x,
           mkMWorld e1 (trace w ++ [MWrite "Checking migrations"; MCheck]))
      end
  end.
Proof.
  unfold final_check, try_except, bind, call, record, modify, raise.
  cbn [env trace].
  destruct (check (env w)) as [[x|] e1]; cbn [env trace];
    [destruct x|]; cbn [env trace]; now rewrite <- !app_assoc.
Qed.

Lemma run_migration_run (w : world) :
  run w =
  let w0 := mkMWorld (env w)
                     (trace w ++ [MPrint "Running migrations with engine_uri: "]) in
  match check_initialized Env select w0 with
  | (Raise x, w1) => (Raise x, w1)
  | (Ok should, w1) =>
      match (if should : bool
             then initialize_alembic Env ensure_version upgrade w1
             else (Ok tt, w1)) with
      | (Raise x, w2) => (Raise x, w2)
      | (Ok _, w2) =>
          let w3 := mkMWorld (env w2)
                             (trace w2
                              ++ [MLog "INFO" "Running DB migrations in " None]) in
          match check_and_upgrade Env upgrade check w3 with
          | (Raise x, w4) => (Raise x, w4)
          | (Ok _, w4) => final_check Env check w4
          end
      end
  end.
Proof.
  unfold run_migration, bind at 1, record at 1, modify. cbv zeta.
  unfold bind at 1.
  destruct (check_initialized _ _ _) as [[should|x] w1]; [|reflexivity].
  unfold bind at 1.
  destruct should; unfold ret; cbv beta.
  - destruct (initialize_alembic Env ensure_version upgrade w1)
      as [[[]|x] w2]; reflexivity.
  - reflexivity.
Qed.

Lemma count_events_app (p : mevent -> bool) (t1 t2 : list mevent) :
  count_events p (t1 ++ t2) = (count_events p t1 + count_events p t2)%nat.
Proof. unfold count_events. now rewrite filter_app, length_app. Qed.

(** The case analysis every property below goes through: the outcome of
    each call the run makes. *)
Ltac run_cases w :=
  rewrite run_migration_run; cbv zeta;
  rewrite check_initialized_run; cbn [env trace];
  destruct (select (env w)) as [[?x|] ?e] eqn:?Hselect; cbn [env trace];
  [ rewrite initialize_alembic_run; cbn [env trace];
    match goal with
    | |- context [ensure_version ?e] =>
        destruct (ensure_version e) as [[?x|] ?e] eqn:?Hensure; cbn [env trace]
    end;
    [ | match goal with
        | |- context [upgrade ?e] =>
            destruct (upgrade e) as [[?x|] ?e] eqn:?Hupgrade; cbn [env trace]
        end ]
  | ];
  try (rewrite check_and_upgrade_run; cbn [env trace];
       match goal with
       | |- context [check ?e] =>
           destruct (check e) as [[?x|] ?e] eqn:?Hcheck; cbn [env trace]
       end;
       [ match goal with
         | |- context [is_command_error ?x] =>
             destruct (is_command_error x) eqn:?Hcmd; cbn [env trace]
         end;
         [ match goal with
           | |- context [upgrade ?e] =>
               destruct (upgrade e) as [[?x|] ?e] eqn:?Hupgrade';
               cbn [env trace]
           end | ]
       | ];
       rewrite final_check_run; cbn [env trace];
       match goal with
       | |- context [check ?e] =>
           destruct (check e) as [[?x|] ?e] eqn:?Hfinal; cbn [env trace]
       end).

Ltac trace_suffix :=
  eexists; rewrite <- ?app_assoc; cbn [app]; reflexivity.

(** C3: the run first queries the alembic_version table.  If the query
    fails it logs that, calls [ensure_version] and goes on to the upgrade to
    head; when one of them fails it raises RuntimeError("Error initializing
    alembic") and no check is made, and when both succeed it goes on to the
    migration check.  If the query succeeds, nothing is initialized: the
    next call is the migration check. *)
Theorem run_migration_initialization (w : world) :
  let r := run w in
  (forall x, fst (select (env w)) = Some x ->
     (init_fails (env w) = true ->
      fst r = Raise (RuntimeError "Error initializing alembic")
      /\ count_events mevent_is_check (trace (snd r))
         = count_events mevent_is_check (trace w)
      /\ exists t',
          trace (snd r)
          = (trace w
             ++ [ MPrint "Running migrations with engine_uri: ";
                  MSelectVersion;
                  MLog "INFO" "Alembic not initialized" None;
                  MLog "INFO" "Initializing alembic" None;
                  MEnsureVersion ] ++ t')%list)
     /\ (init_fails (env w) = false ->
         exists t',
           trace (snd r)
           = (trace w
              ++ [ MPrint "Running migrations with engine_uri: ";
                   MSelectVersion;
                   MLog "INFO" "Alembic not initialized" None;
                   MLog "INFO" "Initializing alembic" None;
                   MEnsureVersion; MUpgradeHead;
                   MLog "INFO" "Alembic initialized" None;
                   MLog "INFO" "Running DB migrations in " None;
                   MWrite "Checking migrations"; MCheck ] ++ t')%list))
  /\ (fst (select (env w)) = None ->
      exists t',
        trace (snd r)
        = (trace w
           ++ [ MPrint "Running migrations with engine_uri: ";
                MSelectVersion;
                MLog "INFO" "Alembic already initialized" None;
                MLog "INFO" "Running DB migrations in " None;
                MWrite "Checking migrations"; MCheck ] ++ t')%list).
Proof.
  cbv zeta. unfold initialization_fails.
  run_cases w; rewrite ?Hensure, ?Hupgrade; cbn [fst snd trace];
    (split; [intros ? [= <-]; split; intros Hf; try discriminate Hf
            | intros Hn; try discriminate Hn ]);
    rewrite <- ?app_assoc; cbn [app];
    try (split; [reflexivity|]; split;
         [rewrite count_events_app; cbn; lia|]);
    try trace_suffix;
    match goal with
    | |- context [match ?x with CommandError => _ | _ => _ end] =>
        destruct x; cbn [fst snd trace]; trace_suffix
    end.
Qed.

Variable set_up : Env -> option exn * Env.

Abbreviation first_env := (first_check_env Env select ensure_version upgrade).
Abbreviation final_env := (final_check_env Env upgrade check).

Ltac checks_tail :=
  rewrite check_and_upgrade_run; cbn [env trace];
  unfold upgrade_step, final_check_env;
  match goal with
  | |- context [check ?e] =>
      destruct (check e) as [[?x|] ?e]; cbn [env trace fst snd]
  end;
  [ match goal with
    | |- context [is_command_error ?x] =>
        destruct (is_command_error x); cbn [env trace fst snd]
    end;
    [ match goal with
      | |- context [upgrade ?e] =>
          destruct (upgrade e) as [[?x|] ?e]; cbn [env trace fst snd]
      end | ]
  | ];
  rewrite final_check_run; cbn [env trace];
  unfold final_log, final_outcome;
  match goal with
  | |- context [check ?e] =>
      destruct (check e) as [[[]|] ?e]; cbn [env trace fst snd is_command_error]
  end;
  (split; [rewrite <- ?app_assoc; reflexivity | reflexivity]).

(** A run that gets past the initialization step: its trace and its
    outcome, in terms of what the two checks and the upgrade between them
    do. *)
Lemma run_migration_stages (w : world) :
  init_fails (env w) = false ->
  trace (snd (run w))
  = (trace w
     ++ prelude Env select (env w)
     ++ [MWrite "Checking migrations"; MCheck]
     ++ upgrade_step Env upgrade check (first_env (env w))
     ++ [MWrite "Checking migrations"; MCheck]
     ++ final_log Env check (final_env (first_env (env w))))%list
  /\ fst (run w) = final_outcome Env check (final_env (first_env (env w))).
Proof.
  unfold initialization_fails, first_check_env, prelude. intros Hinit.
  rewrite run_migration_run; cbv zeta.
  rewrite check_initialized_run; cbn [env trace].
  destruct (select (env w)) as [[x|] e1]; cbn [fst snd env trace] in *.
  - rewrite initialize_alembic_run; cbn [env trace].
    destruct (ensure_version e1) as [[y|] e2]; [discriminate Hinit|].
    cbn [fst snd] in *.
    destruct (upgrade e2) as [[y|] e3]; [discriminate Hinit|].
    cbn [fst snd env trace]. checks_tail.
  - checks_tail.
Qed.

Lemma run_migration_init_failure (w : world) :
  init_fails (env w) = true ->
  fst (run w) = Raise (RuntimeError "Error initializing alembic")
  /\ count_events mevent_is_check (trace (snd (run w)))
     = count_events mevent_is_check (trace w).
Proof.
  unfold initialization_fails. intros Hinit.
  rewrite run_migration_run; cbv zeta.
  rewrite check_initialized_run; cbn [env trace].
  destruct (select (env w)) as [[x|] e1]; cbn [fst snd env trace] in *;
    [|discriminate Hinit].
  rewrite initialize_alembic_run; cbn [env trace].
  destruct (ensure_version e1) as [[y|] e2]; cbn [fst snd env trace] in *.
  - split; [reflexivity|]. rewrite <- ?app_assoc, count_events_app. cbn. lia.
  - destruct (upgrade e2) as [[y|] e3]; [|discriminate Hinit].
    cbn [fst snd env trace].
    split; [reflexivity|]. rewrite <- ?app_assoc, count_events_app. cbn. lia.
Qed.

Lemma prelude_no_check (e : Env) :
  count_events mevent_is_check (prelude Env select e) = 0%nat.
Proof. unfold prelude. destruct (fst (select e)); reflexivity. Qed.

Lemma upgrade_step_no_check (e : Env) :
  count_events mevent_is_check (upgrade_step Env upgrade check e) = 0%nat.
Proof.
  unfold upgrade_step. destruct (check e) as [[x|] e1]; [|reflexivity].
  destruct (is_command_error x); [|reflexivity].
  destruct (fst (upgrade e1)); reflexivity.
Qed.

Lemma upgrade_step_upgrades (e : Env) :
  (count_events mevent_is_upgrade (upgrade_step Env upgrade check e) <= 1)%nat.
Proof.
  unfold upgrade_step. destruct (check e) as [[x|] e1]; [|cbn; lia].
  destruct (is_command_error x); [|cbn; lia].
  destruct (fst (upgrade e1)); cbn; lia.
Qed.

Lemma final_log_quiet (e : Env) :
  count_events mevent_is_check (final_log Env check e) = 0%nat
  /\ count_events mevent_is_upgrade (final_log Env check e) = 0%nat.
Proof.
  unfold final_log. destruct (fst (check e)) as [[]|]; split; reflexivity.
Qed.

(** C5, as amended: a run that gets past the initialization step invokes
    the check operation exactly twice, once before the conditional upgrade
    to head and once after it: its trace is what precedes the first check
    (no check there), the first check, the upgrade step (empty unless that
    check raised CommandError or AutogenerateDiffsDetected), the second
    check, and at most a log line (no check and no upgrade there).  A run
    whose initialization fails raises the RuntimeError and invokes the check
    not at all. *)
Theorem run_migration_checks_twice (w : world) :
  let r := run w in
  (init_fails (env w) = true ->
   fst r = Raise (RuntimeError "Error initializing alembic")
   /\ count_events mevent_is_check (trace (snd r))
      = count_events mevent_is_check (trace w))
  /\ (init_fails (env w) = false ->
      count_events mevent_is_check (trace (snd r))
      = (count_events mevent_is_check (trace w) + 2)%nat
      /\ exists before after,
          trace (snd r)
          = (trace w
             ++ before
             ++ [MWrite "Checking migrations"; MCheck]
             ++ upgrade_step Env upgrade check (first_env (env w))
             ++ [MWrite "Checking migrations"; MCheck]
             ++ after)%list
          /\ count_events mevent_is_check before = 0%nat
          /\ count_events mevent_is_check after = 0%nat
          /\ count_events mevent_is_upgrade after = 0%nat).
Proof.
  cbv zeta. split; [apply run_migration_init_failure|].
  intros Hinit. destruct (run_migration_stages w Hinit) as [Htrace _].
  destruct (final_log_quiet (final_env (first_env (env w)))) as [Hc Hu].
  split.
  - rewrite Htrace, !count_events_app, prelude_no_check,
      upgrade_step_no_check, Hc. cbn. lia.
  - exists (prelude Env select (env w)),
           (final_log Env check (final_env (first_env (env w)))).
    split; [exact Htrace|]. split; [apply prelude_no_check|].
    split; assumption.
Qed.

Abbreviation run_all :=
  (run_migration_with_setup Env set_up select ensure_version upgrade check).

Lemma run_migration_with_setup_run (w : world) :
  run_all w =
  match set_up (env w) with
  | (Some x, e) => (Raise x, mkMWorld e (trace w))
  | (None, e) => run (mkMWorld e (trace w))
  end.
Proof.
  unfold run_migration_with_setup, bind, set_up_call.
  destruct (set_up (env w)) as [[x|] e]; reflexivity.
Qed.

(** C6, as amended: an exception of the set-up is propagated.  After the
    set-up, when the alembic_version query succeeds: nothing is
    initialized; the first check is followed by the upgrade step (one
    upgrade to head, only when that check raised CommandError or
    AutogenerateDiffsDetected, whose failure is a log line) and by the final
    check; a CommandError or AutogenerateDiffsDetected of the final check is
    logged, and the run returns unless the final check raised something
    else, which is raised.  In every execution the exception propagated is
    the set-up's, the RuntimeError of a failed initialization, or an
    exception of the final check that is neither CommandError nor
    AutogenerateDiffsDetected. *)
Theorem run_migration_raises (w : world) :
  let r := run_all w in
  let e := snd (set_up (env w)) in
  (forall x, fst (set_up (env w)) = Some x ->
     fst r = Raise x /\ trace (snd r) = trace w)
  /\ (fst (set_up (env w)) = None -> fst (select e) = None ->
      let e0 := snd (select e) in
      let e2 := final_env e0 in
      trace (snd r)
      = (trace w
         ++ [ MPrint "Running migrations with engine_uri: ";
              MSelectVersion;
              MLog "INFO" "Alembic already initialized" None;
              MLog "INFO" "Running DB migrations in " None;
              MWrite "Checking migrations"; MCheck ]
         ++ upgrade_step Env upgrade check e0
         ++ [MWrite "Checking migrations"; MCheck]
         ++ final_log Env check e2)%list
      /\ fst r = final_outcome Env check e2
      /\ ((forall x, fst (check e2) = Some x -> is_command_error x = true) ->
          fst r = Ok tt)
      /\ (forall x, fst (check e2) = Some x -> is_command_error x = false ->
          fst r = Raise x)
      /\ (count_events mevent_is_upgrade (trace (snd r))
          <= count_events mevent_is_upgrade (trace w) + 1)%nat
      /\ count_events mevent_is_ensure_version (trace (snd r))
         = count_events mevent_is_ensure_version (trace w))
  /\ (forall x, fst r = Raise x ->
        fst (set_up (env w)) = Some x
        \/ (fst (set_up (env w)) = None
            /\ init_fails e = true
            /\ x = RuntimeError "Error initializing alembic")
        \/ (fst (set_up (env w)) = None
            /\ init_fails e = false
            /\ fst (check (final_env (first_env e))) = Some x
            /\ is_command_error x = false)).
Proof.
  cbv zeta. rewrite run_migration_with_setup_run.
  destruct (set_up (env w)) as [[x0|] e] eqn:Hsetup; cbn [fst snd].
  - split; [|split].
    + intros x [= <-]. split; reflexivity.
    + discriminate.
    + intros x [= <-]. now left.
  - split; [discriminate|]. split.
    + intros _ Hq.
      assert (Hinit : init_fails (env (mkMWorld e (trace w))) = false).
      { unfold initialization_fails. cbn [env].
        destruct (select e) as [[y|] e1]; [discriminate Hq | reflexivity]. }
      destruct (run_migration_stages (mkMWorld e (trace w)) Hinit)
        as [Htrace Hout].
      cbn [env trace] in Htrace, Hout.
      assert (Hfirst : first_env e = snd (select e)).
      { unfold first_check_env. destruct (select e) as [[y|] e1];
          [discriminate Hq | reflexivity]. }
      rewrite Hfirst in Htrace, Hout.
      assert (Hpre : prelude Env select e
                     = [ MPrint "Running migrations with engine_uri: ";
                         MSelectVersion;
                         MLog "INFO" "Alembic already initialized" None;
                         MLog "INFO" "Running DB migrations in " None ]).
      { unfold prelude. now rewrite Hq. }
      rewrite Hpre in Htrace.
      split; [rewrite Htrace; reflexivity|]. split; [exact Hout|].
      split; [|split; [|split]].
      * intros Hall. rewrite Hout. unfold final_outcome.
        destruct (fst (check (final_env (snd (select e))))) as [x|] eqn:Hc;
          [|reflexivity].
        now rewrite (Hall x eq_refl).
      * intros x Hx Hcmd. rewrite Hout. unfold final_outcome.
        now rewrite Hx, Hcmd.
      * rewrite Htrace, !count_events_app.
        pose proof (upgrade_step_upgrades (snd (select e))) as Hup.
        destruct (final_log_quiet (final_env (snd (select e)))) as [_ Hu].
        rewrite Hu. cbn. lia.
      * rewrite Htrace, !count_events_app.
        unfold upgrade_step, final_log.
        destruct (check (snd (select e))) as [[x|] e1];
          [destruct (is_command_error x); [destruct (fst (upgrade e1))|]|];
          destruct (fst (check _)) as [[]|]; cbn; lia.
    + intros x Hx. right.
      destruct (init_fails e) eqn:Hinit.
      * left. destruct (run_migration_init_failure (mkMWorld e (trace w)) Hinit)
          as [Hr _].
        rewrite Hr in Hx. injection Hx as <-. auto.
      * right. destruct (run_migration_stages (mkMWorld e (trace w)) Hinit)
          as [_ Hout].
        cbn [env] in Hout. rewrite Hout in Hx. unfold final_outcome in Hx.
        destruct (fst (check (final_env (first_env e)))) as [y|];
          [|discriminate Hx].
        destruct (is_command_error y) eqn:Hcmd; [discriminate Hx|].
        injection Hx as <-. auto.
Qed.

End MigrationProperties.

(** An uninitialized schema is initialized and then checked; a failing
    [ensure_version] ends the run; a schema at head is checked at once. *)
Lemma run_migration_initialization_witness :
  (fst (schema_select Uninitialized) = Some (OtherException "OperationalError")
   /\ exists t',
       trace (snd (run_schema Uninitialized))
       = [ MPrint "Running migrations with engine_uri: ";
           MSelectVersion;
           MLog "INFO" "Alembic not initialized" None;
           MLog "INFO" "Initializing alembic" None;
           MEnsureVersion; MUpgradeHead;
           MLog "INFO" "Alembic initialized" None;
           MLog "INFO" "Running DB migrations in " None;
           MWrite "Checking migrations"; MCheck ] ++ t')%list
  /\ fst (run_scripted [Some (OtherException "OperationalError");
                        Some CommandError])
     = Raise (RuntimeError "Error initializing alembic")
  /\ (fst (schema_select AtHead) = None
      /\ exists t',
          trace (snd (run_schema AtHead))
          = [ MPrint "Running migrations with engine_uri: ";
              MSelectVersion;
              MLog "INFO" "Alembic already initialized" None;
              MLog "INFO" "Running DB migrations in " None;
              MWrite "Checking migrations"; MCheck ] ++ t')%list.
Proof.
  split; [split; [reflexivity|] | split; [|split; [reflexivity|]]].
  - destruct (run_migration_initialization schema schema_select
                schema_ensure_version schema_upgrade schema_check
                (mkMWorld Uninitialized [])) as [H _].
    apply (proj2 (H _ eq_refl)). reflexivity.
  - destruct (run_migration_initialization (list (option exn)) scripted
                scripted scripted scripted
                (mkMWorld [Some (OtherException "OperationalError");
                           Some CommandError] [])) as [H _].
    apply (proj1 (H _ eq_refl)). reflexivity.
  - destruct (run_migration_initialization schema schema_select
                schema_ensure_version schema_upgrade schema_check
                (mkMWorld AtHead [])) as [_ H].
    apply H. reflexivity.
Defined.

(** C5 fails as stated: a run in which every call succeeds invokes the
    check twice, not once. *)
Lemma run_migration_checks_once_counterexample :
  fst (run_scripted []) = Ok tt
  /\ trace (snd (run_scripted []))
     = [ MPrint "Running migrations with engine_uri: ";
         MSelectVersion;
         MLog "INFO" "Alembic already initialized" None;
         MLog "INFO" "Running DB migrations in " None;
         MWrite "Checking migrations"; MCheck;
         MWrite "Checking migrations"; MCheck ]
  /\ count_events mevent_is_check (trace (snd (run_scripted []))) = 2%nat
  /\ count_events mevent_is_check (trace (snd (run_scripted []))) <> 1%nat.
Proof. repeat split. discriminate. Qed.

(** A schema that is behind: checked, upgraded, checked again. *)
Lemma run_migration_checks_twice_witness :
  initialization_fails schema schema_select schema_ensure_version
                       schema_upgrade Behind = false
  /\ count_events mevent_is_check (trace (snd (run_schema Behind))) = 2%nat
  /\ exists before after,
      trace (snd (run_schema Behind))
      = (before
         ++ [MWrite "Checking migrations"; MCheck]
         ++ [MUpgradeHead; MSleep 3]
         ++ [MWrite "Checking migrations"; MCheck]
         ++ after)%list
      /\ count_events mevent_is_check before = 0%nat
      /\ count_events mevent_is_check after = 0%nat
      /\ count_events mevent_is_upgrade after = 0%nat.
Proof.
  split; [reflexivity|].
  apply (proj2 (run_migration_checks_twice schema schema_select
                  schema_ensure_version schema_upgrade schema_check
                  (mkMWorld Behind []))).
  reflexivity.
Defined.

(** C6 fails as stated: the alembic_version query succeeds, the first
    check's error is swallowed without a log line or an upgrade, and the
    final check's error, which is not a RuntimeError, is propagated. *)
Lemma run_migration_raises_counterexample :
  fst (scripted failing_check_script) = None
  /\ fst (run_scripted failing_check_script)
     = Raise (OtherException "OperationalError")
  /\ trace (snd (run_scripted failing_check_script))
     = [ MPrint "Running migrations with engine_uri: ";
         MSelectVersion;
         MLog "INFO" "Alembic already initialized" None;
         MLog "INFO" "Running DB migrations in " None;
         MWrite "Checking migrations"; MCheck;
         MWrite "Checking migrations"; MCheck ].
Proof. repeat split. Qed.

Lemma schema_check_command_errors (s : schema) (x : exn) :
  fst (schema_check s) = Some x -> is_command_error x = true.
Proof. destruct s; simpl; intros H; inversion H; reflexivity. Qed.

(** A set-up that fails, and a schema that is behind, whose final check
    passes after the upgrade. *)
Lemma run_migration_raises_witness :
  (fst (failing_set_up Behind) = Some (OtherException "PermissionError")
   /\ fst (run_migration_with_setup schema failing_set_up schema_select
             schema_ensure_version schema_upgrade schema_check
             (mkMWorld Behind []))
      = Raise (OtherException "PermissionError"))
  /\ (fst (working_set_up Behind) = None
      /\ fst (schema_select Behind) = None
      /\ fst (run_migration_with_setup schema working_set_up schema_select
                schema_ensure_version schema_upgrade schema_check
                (mkMWorld Behind []))
         = Ok tt).
Proof.
  split; (split; [reflexivity|]).
  - destruct (run_migration_raises schema schema_select
                schema_ensure_version schema_upgrade schema_check
                failing_set_up (mkMWorld Behind [])) as (H & _ & _).
    apply (H _ eq_refl).
  - split; [reflexivity|].
    destruct (run_migration_raises schema schema_select
                schema_ensure_version schema_upgrade schema_check
                working_set_up (mkMWorld Behind [])) as (_ & H & _).
    destruct (H eq_refl eq_refl) as (_ & _ & Hok & _).
    apply Hok. intros x Hx. cbn in Hx. discriminate Hx.
Defined.

(** * Further properties *)

(** ** When [get_agent] returns, and what it raises *)

Lemma mapM_Raise_In {S A B} (f : A -> M S B) (l : list A) (s : S) (e : exn) :
  (forall x, reads_only (f x)) ->
  fst (mapM f l s) = Raise e ->
  exists x, In x l /\ fst (f x s) = Raise e.
Proof.
  intros Hro. induction l as [|x l IH]; simpl; [discriminate|].
  unfold bind. pose proof (Hro x s) as Hx.
  destruct (f x s) as [[y|e'] s'] eqn:Hfx; simpl in *.
  - subst s'. destruct (mapM f l s) as [[ys|e'] s''] eqn:Hm; simpl in *;
      [discriminate|].
    intros H. destruct (IH H) as (x' & Hin & Hx').
    exists x'. split; [now right | exact Hx'].
  - intros H. exists x. rewrite Hfx. split; [now left | now inversion H].
Qed.

Lemma mapM_of_Forall2 {S A B} (f : A -> M S B) (l : list A) (s : S)
      (ys : list B) :
  (forall x, reads_only (f x)) ->
  Forall2 (fun x y => fst (f x s) = Ok y) l ys ->
  mapM f l s = (Ok ys, s).
Proof.
  intros Hro. induction 1 as [|x y l ys Hxy _ IH]; simpl; [reflexivity|].
  unfold bind. pose proof (Hro x s) as Hx.
  destruct (f x s) as [r s']; simpl in *. subst. now rewrite IH.
Qed.

Lemma config_assignable_false (d : DB) (a : Agent) :
  config_assignable d a = false <-> llm_config_rejects d a.
Proof.
  unfold config_assignable, llm_config_rejects.
  destruct (models_of d a) as [|m ms].
  - split; [discriminate | intros [H _]; now contradiction H].
  - rewrite orb_false_iff, negb_false_iff. split.
    + intros [H1 H2]. repeat split; [discriminate | assumption | assumption].
    + tauto.
Qed.

(** On the dictionary of an agent row the step of lines 67-72 fails only
    at the item assignment of line 71. *)
Lemma set_config_list_agent (d : DB) (a : Agent) :
  match set_config_list (config_models d a) (agent_base d a) with
  | Ok _ => config_assignable d a = true
  | Raise e => e = TypeError /\ llm_config_rejects d a
  end.
Proof.
  pose proof (config_assignable_false d a) as Hrej.
  unfold set_config_list, config_models, config_assignable in *.
  rewrite agent_base_config. fold (llm_config_of a).
  destruct (models_of d a) as [|m ms]; cbn [map]; [reflexivity|].
  destruct (llm_config_of a) as [|b|z|s|l|l|c l]; cbn [truthy is_dict] in *.
  - reflexivity.
  - destruct b; cbn in *; [split; [reflexivity | now apply Hrej] | reflexivity].
  - destruct (z =? 0); cbn in *;
      [reflexivity | split; [reflexivity | now apply Hrej]].
  - destruct (s =? "")%string; cbn in *;
      [reflexivity | split; [reflexivity | now apply Hrej]].
  - destruct l; cbn in *;
      [reflexivity | split; [reflexivity | now apply Hrej]].
  - destruct l; reflexivity.
  - cbn. split; [reflexivity | now apply Hrej].
Qed.

Lemma related_In {R} (links : list (Z * Z)) (rid : R -> Z) (rows : list R)
      (primary : Z) (r : R) :
  In r (related links rid rows primary) -> In r rows.
Proof.
  unfold related. rewrite in_flat_map. intros ((p & q) & _ & Hr).
  destruct (fst (p, q) =? primary); [|contradiction].
  now apply filter_In in Hr.
Qed.

Lemma agent_rows_of_row (d : DB) (b : Agent) :
  In b (agents d) -> agent_rows d (agent_id b) <> [].
Proof.
  intros Hin Hnil.
  assert (H : In b (agent_rows d (agent_id b))).
  { apply filter_In. split; [exact Hin | apply Z.eqb_refl]. }
  now rewrite Hnil in H.
Qed.

Lemma agent_rows_In (d : DB) (agent_id' : Z) (a : Agent) (rest : list Agent) :
  agent_rows d agent_id' = a :: rest -> In a (agents d).
Proof.
  intros H. assert (Ha : In a (agent_rows d agent_id')) by (rewrite H; now left).
  now apply filter_In in Ha.
Qed.

Lemma Forall2_In_left {A B} (R : A -> B -> Prop) (l : list A) (l' : list B)
      (x : A) :
  Forall2 R l l' -> In x l -> exists y, In y l' /\ R x y.
Proof.
  induction 1 as [|x0 y0 l l' HR _ IH]; intros Hin; [contradiction|].
  destruct Hin as [->|Hin].
  - exists y0. split; [now left | exact HR].
  - destruct (IH Hin) as (y & Hy & HRy). exists y. split; [now right | exact HRy].
Qed.

(** A call that returns has found the agent nesting within the limit, and
    returns the nested agent. *)
Lemma get_agent_sound (depth : nat) (agent_id' : Z) (w : World) (v : value) :
  fst (get_agent depth agent_id' w) = Ok v ->
  nests_within (db w) depth agent_id' = true /\ agent_view (db w) agent_id' v.
Proof.
  revert agent_id' v. induction depth as [|n IH]; intros agent_id' v;
    [discriminate|].
  rewrite get_agent_unfold. cbn [nests_within].
  destruct (agent_rows (db w) agent_id') as [|a rest] eqn:Hrows;
    [discriminate|].
  pose proof (set_config_list_agent (db w) a) as Hcfg.
  destruct (set_config_list _ _) as [ad|e] eqn:Hs; [|discriminate].
  pose proof (mapM_Ok_Forall2 (fun b => get_agent n (agent_id b))
                (agents_of (db w) a) w) as Hsubs.
  destruct (mapM _ _ w) as [[subs|e] w']; [|discriminate].
  specialize (Hsubs subs (fun b => get_agent_reads_only n (agent_id b)) eq_refl).
  cbn [fst]. intros H. apply (f_equal (result_or VNone)) in H.
  cbn [result_or] in H. subst v. split.
  - rewrite Hcfg. cbn [andb]. apply forallb_forall. intros b Hb.
    destruct (Forall2_In_left _ _ _ b Hsubs Hb) as (y & _ & Hy).
    now apply (IH _ _ Hy).
  - destruct (agent_dict_shape (db w) a ad subs Hs)
      as (Hk & (config' & Hc & Hrest & _) & Hsk & Hmo & Hag).
    eapply agent_view_intro; eauto. apply Forall2_map_left.
    eapply Forall2_impl; [|exact Hsubs].
    intros b y Hy. now apply (IH _ _ Hy).
Qed.

Lemma get_agent_limit_mono (w : World) (n : nat) :
  forall agent_id' v,
    fst (get_agent n agent_id' w) = Ok v ->
    forall m, (n <= m)%nat -> fst (get_agent m agent_id' w) = Ok v.
Proof.
  induction n as [|n IH]; intros agent_id' v; [discriminate|].
  intros H m Hle. destruct m as [|m]; [lia|].
  rewrite get_agent_unfold in H |- *.
  destruct (agent_rows (db w) agent_id') as [|a rest]; [discriminate|].
  destruct (set_config_list _ _) as [ad|e]; [|discriminate].
  pose proof (mapM_Ok_Forall2 (fun b => get_agent n (agent_id b))
                (agents_of (db w) a) w) as Hsubs.
  destruct (mapM (fun b => get_agent n (agent_id b)) _ w) as [[subs|e] w'];
    [|discriminate].
  specialize (Hsubs subs (fun b => get_agent_reads_only n (agent_id b)) eq_refl).
  rewrite (mapM_of_Forall2 (fun b => get_agent m (agent_id b)) _ w subs).
  - exact H.
  - intros b. apply get_agent_reads_only.
  - eapply Forall2_impl; [|exact Hsubs].
    intros b y Hy. apply (IH _ _ Hy). lia.
Qed.

(** Why a call of [get_agent] raises. *)
Lemma get_agent_raise_cause (depth : nat) (agent_id' : Z) (w : World) (e : exn) :
  fst (get_agent depth agent_id' w) = Raise e ->
  (e = IndexError /\ agent_rows (db w) agent_id' = [])
  \/ (e = TypeError
      /\ exists a, In a (agents (db w)) /\ llm_config_rejects (db w) a)
  \/ e = RecursionError.
Proof.
  revert agent_id' e. induction depth as [|n IH]; intros agent_id' e.
  - cbn. intros H. inversion H. auto.
  - rewrite get_agent_unfold.
    destruct (agent_rows (db w) agent_id') as [|a rest] eqn:Hrows.
    + cbn. intros H. inversion H. auto.
    + pose proof (set_config_list_agent (db w) a) as Hcfg.
      destruct (set_config_list _ _) as [ad|e'].
      * pose proof (mapM_Raise_In (fun b => get_agent n (agent_id b))
                      (agents_of (db w) a) w e
                      (fun b => get_agent_reads_only n (agent_id b))) as Hm.
        destruct (mapM _ _ w) as [[subs|e'] w']; cbn [fst] in *;
          [discriminate|].
        intros H. destruct Hm as (b & Hb & Hraise); [now inversion H|].
        destruct (IH _ _ Hraise) as [[_ Hnil]|Hother]; [|exact (or_intror Hother)].
        apply related_In in Hb. now destruct (agent_rows_of_row _ _ Hb).
      * cbn. intros H. inversion H; subst e'. destruct Hcfg as [-> Hrej].
        right. left. split; [reflexivity|]. exists a. split; [|exact Hrej].
        eapply agent_rows_In, Hrows.
Qed.

(** ** When [workflow_from_id] returns, and what it raises *)

Lemma agent_entry_sound (limit : nat) (l : WorkflowAgentLink) (w : World)
      (e : value) :
  fst (agent_entry limit l w) = Ok e ->
  entry_of_link (db w) l e
  /\ nests_within (db w) limit (wal_agent_id l) = true.
Proof.
  unfold agent_entry, bind.
  pose proof (get_agent_sound limit (wal_agent_id l) w) as Hs.
  destruct (get_agent limit (wal_agent_id l) w) as [[ag|x] w']; cbn [fst] in *;
    [|discriminate].
  destruct (Hs ag eq_refl) as [Hn Hv].
  cbn. intros H. inversion H. split; [now exists ag | exact Hn].
Qed.

Lemma agent_entry_limit_mono (n m : nat) (l : WorkflowAgentLink) (w : World)
      (e : value) :
  (n <= m)%nat ->
  fst (agent_entry n l w) = Ok e -> fst (agent_entry m l w) = Ok e.
Proof.
  intros Hle. unfold agent_entry, bind.
  pose proof (get_agent_limit_mono w n (wal_agent_id l)) as Hmono.
  pose proof (get_agent_reads_only m (wal_agent_id l) w) as Hro.
  destruct (get_agent n (wal_agent_id l) w) as [[ag|x] w']; cbn [fst] in *;
    [|discriminate].
  specialize (Hmono ag eq_refl m Hle).
  destruct (get_agent m (wal_agent_id l) w) as [r w'']; cbn [fst snd] in *.
  subst. exact (fun H => H).
Qed.

Lemma agent_entry_raise (limit : nat) (l : WorkflowAgentLink) (w : World)
      (e : exn) :
  fst (agent_entry limit l w) = Raise e ->
  fst (get_agent limit (wal_agent_id l) w) = Raise e.
Proof.
  unfold agent_entry, bind.
  destruct (get_agent limit (wal_agent_id l) w) as [[ag|x] w']; cbn;
    [discriminate | intros H; now inversion H].
Qed.

Lemma arranged_perm (t : WorkFlowType) (links : list WorkflowAgentLink)
      (entries : list value) :
  Forall2 entry_shape links entries ->
  Permutation entries (arranged t links entries).
Proof.
  intros Hshape. destruct t; simpl; [apply Permutation_refl|].
  apply (sorted_entries_spec _ _ Hshape).
Qed.

(** X1: whenever [workflow_from_id] returns, with no assumption on the
    database, the value is the dump of the first Workflow row with the id,
    with ["agents"] set to a rearrangement of one entry per link row of the
    workflow, each the link's dump with the nested agent of the link. *)
Theorem workflow_from_id_sound (limit : nat) (workflow_id' : Z) (w : World)
        (wf : dict) :
  fst (workflow_from_id limit workflow_id' w) = Ok wf ->
  exists w0 entries per_link,
    In w0 (workflows (db w)) /\ workflow_id w0 = workflow_id'
    /\ wf = dict_set "agents" (VList entries) (Workflow_model_dump w0)
    /\ Permutation per_link entries
    /\ Forall2 (entry_of_link (db w))
               (links_of_workflow (db w) workflow_id') per_link.
Proof.
  rewrite workflow_from_id_result.
  destruct (workflow_rows (db w) workflow_id') as [|w0 rest] eqn:Hrows;
    [discriminate|].
  destruct (workflow_rows_head _ _ _ _ Hrows) as [Hin Hid]. cbv zeta.
  pose proof (mapM_Ok_Forall2 (agent_entry limit)
                (links_of_workflow (db w) workflow_id') w) as Hent.
  destruct (fst (mapM _ _ w)) as [entries|e]; [|discriminate].
  specialize (Hent entries (agent_entry_reads_only limit) eq_refl).
  assert (HF : Forall2 (entry_of_link (db w))
                       (links_of_workflow (db w) workflow_id') entries).
  { eapply Forall2_impl; [|exact Hent].
    intros l e He. now apply (agent_entry_sound limit). }
  cbn [fst]. intros H. apply (f_equal (result_or [])) in H.
  cbn [result_or] in H. subst wf.
  exists w0. eexists. exists entries. repeat split; try assumption.
  apply arranged_perm. eapply Forall2_impl; [|exact HF].
  apply entry_of_link_shape.
Qed.

Lemma workflow_from_id_sound_witness :
  exists w0 entries per_link,
    In w0 (workflows (db (world_of (two_step_db sequential))))
    /\ workflow_id w0 = 1
    /\ two_step_sorted
       = dict_set "agents" (VList entries) (Workflow_model_dump w0)
    /\ Permutation per_link entries
    /\ Forall2 (entry_of_link (db (world_of (two_step_db sequential))))
               (links_of_workflow (db (world_of (two_step_db sequential))) 1)
               per_link.
Proof.
  apply (workflow_from_id_sound 1 1 (world_of (two_step_db sequential))).
  reflexivity.
Defined.

(** X2: [workflow_from_id] returns exactly when a Workflow row has the id
    and the agent of every link row of the workflow exists and nests, with
    an [llm_config] that can take [config_list], within the recursion
    limit. *)
Theorem workflow_from_id_returns_iff (limit : nat) (workflow_id' : Z)
        (w : World) :
  (exists wf, fst (workflow_from_id limit workflow_id' w) = Ok wf)
  <-> ((exists r, In r (workflows (db w)) /\ workflow_id r = workflow_id')
       /\ forall l, In l (links_of_workflow (db w) workflow_id') ->
                    nests_within (db w) limit (wal_agent_id l) = true).
Proof.
  rewrite workflow_from_id_result.
  pose proof (workflow_rows_nil (db w) workflow_id') as Hnil.
  destruct (workflow_rows (db w) workflow_id') as [|w0 rest] eqn:Hrows.
  - split.
    + intros [wf H]. discriminate.
    + intros [(r & Hin & Hid) _]. destruct (proj1 Hnil eq_refl r Hin Hid).
  - destruct (workflow_rows_head _ _ _ _ Hrows) as [Hin Hid]. cbv zeta. split.
    + pose proof (mapM_Ok_Forall2 (agent_entry limit)
                    (links_of_workflow (db w) workflow_id') w) as Hent.
      destruct (fst (mapM _ _ w)) as [entries|e]; intros [wf H];
        [|discriminate].
      specialize (Hent entries (agent_entry_reads_only limit) eq_refl).
      split; [now exists w0|]. intros l Hl.
      destruct (Forall2_In_left _ _ _ l Hent Hl) as (e & _ & He).
      now apply (agent_entry_sound limit l w e).
    + intros [_ Hnest].
      destruct (mapM_Forall2 (entry_of_link (db w)) (agent_entry limit)
                  (links_of_workflow (db w) workflow_id') w)
        as (entries & Hm & _).
      { intros l Hl. apply agent_entry_view. now apply Hnest. }
      rewrite Hm. cbn [fst]. now eexists.
Qed.

(** X3: a value returned under one recursion limit is the value returned
    under every greater limit. *)
Theorem workflow_from_id_limit_mono (n m : nat) (workflow_id' : Z) (w : World)
        (wf : dict) :
  (n <= m)%nat ->
  fst (workflow_from_id n workflow_id' w) = Ok wf ->
  fst (workflow_from_id m workflow_id' w) = Ok wf.
Proof.
  intros Hle. rewrite !workflow_from_id_result.
  destruct (workflow_rows (db w) workflow_id') as [|w0 rest]; [discriminate|].
  cbv zeta.
  pose proof (mapM_Ok_Forall2 (agent_entry n)
                (links_of_workflow (db w) workflow_id') w) as Hent.
  destruct (fst (mapM (agent_entry n) _ w)) as [entries|e]; [|discriminate].
  specialize (Hent entries (agent_entry_reads_only n) eq_refl).
  rewrite (mapM_of_Forall2 (agent_entry m) _ w entries).
  - exact (fun H => H).
  - apply agent_entry_reads_only.
  - eapply Forall2_impl; [|exact Hent].
    intros l e. now apply agent_entry_limit_mono.
Qed.

Lemma workflow_from_id_limit_mono_witness :
  (1 <= 1000)%nat
  /\ fst (workflow_from_id 1000 1 (world_of (two_step_db sequential)))
     = Ok two_step_sorted.
Proof.
  split; [lia|].
  apply (workflow_from_id_limit_mono 1 1000 1
           (world_of (two_step_db sequential)) two_step_sorted);
    [lia | reflexivity].
Defined.

(** X4: for a workflow that has a row, [workflow_from_id] raises only
    IndexError, TypeError or RecursionError: IndexError when a link row of
    the workflow names an agent that has no row, TypeError when some agent
    with a model has a truthy [llm_config] that is not a dictionary, and
    RecursionError when a linked agent does not nest within the limit.  With
    no row it raises the ValueError. *)
Theorem workflow_from_id_failure (limit : nat) (workflow_id' : Z) (w : World)
        (e : exn) :
  fst (workflow_from_id limit workflow_id' w) = Raise e ->
  (e = missing_workflow /\ no_workflow_row (db w) workflow_id')
  \/ ((exists r, In r (workflows (db w)) /\ workflow_id r = workflow_id')
      /\ failure_cause (db w) limit workflow_id' e).
Proof.
  rewrite workflow_from_id_result.
  pose proof (workflow_rows_nil (db w) workflow_id') as Hnil.
  destruct (workflow_rows (db w) workflow_id') as [|w0 rest] eqn:Hrows.
  - cbn. intros H. inversion H. left. split; [reflexivity | now apply Hnil].
  - destruct (workflow_rows_head _ _ _ _ Hrows) as [Hin Hid]. cbv zeta.
    pose proof (mapM_Raise_In (agent_entry limit)
                  (links_of_workflow (db w) workflow_id') w e
                  (agent_entry_reads_only limit)) as Hm.
    destruct (fst (mapM _ _ w)) as [entries|e']; [discriminate|].
    cbn. intros H. inversion H; subst e'. clear H.
    destruct (Hm eq_refl) as (l & Hl & Hraise).
    apply agent_entry_raise in Hraise.
    right. split; [now exists w0|].
    destruct (get_agent_raise_cause _ _ _ _ Hraise)
      as [[-> Hrows']|[[-> (a & Ha & Hrej)]| ->]].
    + now apply (cause_missing_agent _ _ _ l).
    + now apply (cause_llm_config _ _ _ a).
    + apply (cause_nesting _ _ _ l Hl).
      destruct (nests_within (db w) limit (wal_agent_id l)) eqn:Hn;
        [|reflexivity].
      destruct (get_agent_view _ _ _ Hn) as (v & Hv & _).
      rewrite Hv in Hraise. discriminate.
Qed.

Lemma workflow_from_id_failure_witness :
  (exists r, In r (workflows (db (world_of dangling_db))) /\ workflow_id r = 1)
  /\ failure_cause (db (world_of dangling_db)) 1 1 IndexError.
Proof.
  destruct (workflow_from_id_failure 1 1 (world_of dangling_db) IndexError
              eq_refl) as [[H _]|H].
  - discriminate H.
  - exact H.
Defined.

Lemma workflow_from_id_returns_iff_witness :
  exists wf, fst (workflow_from_id 2 1 seeded_world) = Ok wf.
Proof.
  apply (proj2 (workflow_from_id_returns_iff 2 1 seeded_world)). split.
  - exists (mkWorkflow 1 "Travel Planning Workflow" autonomous
                       travel_workflow_cols).
    split; [left; reflexivity | reflexivity].
  - intros l Hl. vm_compute in Hl.
    destruct Hl as [<-|[<-|[]]]; vm_compute; reflexivity.
Defined.

(** ** The sort is stable *)

Lemma insert_by_key_stable (k0 k : Z) (x : value) (l : list (Z * value)) :
  filter (fun kv => fst kv =? k0) (insert_by_key k x l)
  = filter (fun kv => fst kv =? k0) ((k, x) :: l).
Proof.
  induction l as [|[k' y] l IH]; [reflexivity|].
  cbn [insert_by_key]. destruct (Z.leb_spec k k') as [Hle|Hgt]; [reflexivity|].
  cbn [filter fst] in *. rewrite IH.
  destruct (Z.eqb_spec k' k0) as [->|Hne'], (Z.eqb_spec k k0) as [->|Hne];
    try reflexivity.
  lia.
Qed.

Lemma sort_keyed_stable (k0 : Z) (l : list (Z * value)) :
  filter (fun kv => fst kv =? k0) (sort_keyed l)
  = filter (fun kv => fst kv =? k0) l.
Proof.
  induction l as [|[k x] l IH]; [reflexivity|].
  cbn [sort_keyed fold_right fst snd]. fold (sort_keyed l).
  rewrite insert_by_key_stable. cbn [filter fst]. now rewrite IH.
Qed.

Lemma filter_keyed (k0 : Z) (l : list (Z * value)) :
  Forall (fun kv => sequence_key (snd kv) = Ok (fst kv)) l ->
  filter (has_sequence_id k0) (map snd l)
  = map snd (filter (fun kv => fst kv =? k0) l).
Proof.
  induction 1 as [|[k x] l Hk _ IH]; [reflexivity|].
  cbn [map filter fst snd] in *. unfold has_sequence_id at 1. rewrite Hk, IH.
  now destruct (k =? k0).
Qed.

Lemma filter_entries (k0 : Z) (links : list WorkflowAgentLink)
      (entries : list value) :
  Forall2 entry_shape links entries ->
  map entry_link (filter (has_sequence_id k0) entries)
  = map link_dump (filter (fun l => wal_sequence_id l =? k0) links).
Proof.
  induction 1 as [|l e links entries He _ IH]; [reflexivity|].
  cbn [filter]. unfold has_sequence_id at 1.
  rewrite (entry_shape_key l e He).
  destruct (wal_sequence_id l =? k0); cbn [map]; [|exact IH].
  now rewrite IH, (entry_shape_link l e He).
Qed.

(** X5: the sort of a sequential workflow is stable: in the value
    returned, the entries with the same [sequence_id] are in the order in
    which their link rows were returned. *)
Theorem workflow_from_id_stable (limit : nat) (workflow_id' : Z) (w : World)
        (wf : dict) :
  fst (workflow_from_id limit workflow_id' w) = Ok wf ->
  dict_get "type" wf = Some (VStr "sequential") ->
  exists entries,
    dict_get "agents" wf = Some (VList entries)
    /\ forall k,
        map entry_link (filter (has_sequence_id k) entries)
        = map link_dump
              (filter (fun l => wal_sequence_id l =? k)
                      (links_of_workflow (db w) workflow_id')).
Proof.
  rewrite workflow_from_id_result.
  destruct (workflow_rows (db w) workflow_id') as [|w0 rest]; [discriminate|].
  cbv zeta.
  pose proof (mapM_entries_shape limit
                (links_of_workflow (db w) workflow_id') w) as Hshape.
  destruct (fst (mapM _ _ w)) as [entries|e]; [|discriminate].
  specialize (Hshape entries eq_refl).
  cbn [fst]. intros H. apply (f_equal (result_or [])) in H.
  cbn [result_or] in H. subst wf.
  rewrite workflow_dump_type, dict_get_set_same.
  destruct (workflow_type w0); [discriminate|]. intros _.
  eexists. split; [reflexivity|]. intros k. cbn [arranged].
  destruct (combine_keys _ _ Hshape) as [Hsnd Hkeys].
  unfold sorted_entries. rewrite filter_keyed.
  - rewrite sort_keyed_stable, <- filter_keyed by exact Hkeys.
    rewrite Hsnd. now apply filter_entries.
  - apply Forall_forall. intros kv Hin. rewrite Forall_forall in Hkeys.
    apply Hkeys. eapply Permutation_in; [apply sort_keyed_perm | exact Hin].
Qed.

Lemma workflow_from_id_stable_witness :
  exists entries,
    dict_get "agents" tied_sorted = Some (VList entries)
    /\ forall k,
        map entry_link (filter (has_sequence_id k) entries)
        = map link_dump
              (filter (fun l => wal_sequence_id l =? k)
                      (links_of_workflow (db (world_of tied_db)) 1)).
Proof.
  apply (workflow_from_id_stable 1 1 (world_of tied_db) tied_sorted);
    reflexivity.
Defined.

(** Three links, the last with the smallest [sequence_id] and the first
    two tied: the tied entries keep their order behind it. *)
Example tied_order :
  map entry_link
      (match dict_get "agents" tied_sorted with
       | Some (VList l) => l
       | _ => []
       end)
  = map link_dump [ mkWorkflowAgentLink 1 1 "receiver" 0;
                    mkWorkflowAgentLink 1 2 "sender" 5;
                    mkWorkflowAgentLink 1 1 "receiver" 5 ].
Proof. reflexivity. Qed.

(** ** A falsy [llm_config] *)

Lemma set_config_list_falsy (ms : list value) (ad config : dict) :
  dict_get "config" ad = Some (VDict config) ->
  ms <> [] ->
  let llm := match dict_get "llm_config" config with
             | Some v => v | None => VDict [] end in
  truthy llm = false ->
  set_config_list ms ad
  = Ok (dict_set "config"
          (VDict (dict_set "llm_config" llm (dict_set "llm_config" llm config)))
          ad).
Proof.
  intros Hc Hms llm Ht. unfold set_config_list.
  destruct ms as [|m ms]; [now contradiction Hms|].
  rewrite Hc. fold llm. now rewrite Ht.
Qed.

(** X6: for an agent that has a model and whose [llm_config] is falsy or
    absent, the dictionary [get_agent] returns has the row's [config] with
    [llm_config] set to that falsy value, [{}] when the row has none, and
    no [config_list] is put anywhere. *)
Theorem get_agent_falsy_llm_config (depth : nat) (agent_id' : Z) (w : World)
        (v : value) (a : Agent) (rest : list Agent) :
  fst (get_agent depth agent_id' w) = Ok v ->
  agent_rows (db w) agent_id' = a :: rest ->
  models_of (db w) a <> [] ->
  truthy (llm_config_of a) = false ->
  exists ad config,
    v = VDict ad
    /\ dict_get "config" ad = Some (VDict config)
    /\ dict_get "llm_config" config = Some (llm_config_of a)
    /\ forall k, k <> "llm_config" ->
                 dict_get k config = dict_get k (agent_config a).
Proof.
  destruct depth as [|n]; [discriminate|].
  rewrite get_agent_unfold. intros H Hrows Hms Ht. rewrite Hrows in H.
  rewrite (set_config_list_falsy _ _ _ (agent_base_config (db w) a)) in H.
  - destruct (mapM _ _ w) as [[subs|e] w']; [|discriminate].
    cbn [fst] in H. apply (f_equal (result_or VNone)) in H.
    cbn [result_or] in H. subst v.
    eexists. eexists. split; [reflexivity|]. split; [|split].
    + rewrite dict_get_set_other by discriminate. apply dict_get_set_same.
    + apply dict_get_set_same.
    + intros k Hk. now rewrite !dict_get_set_other.
  - unfold config_models. destruct (models_of (db w) a);
      [now contradiction Hms | discriminate].
  - exact Ht.
Qed.

Lemma get_agent_falsy_llm_config_witness :
  exists ad config,
    no_llm_agent_dict = VDict ad
    /\ dict_get "config" ad = Some (VDict config)
    /\ dict_get "llm_config" config = Some (VDict [])
    /\ forall k, k <> "llm_config" ->
                 dict_get k config = dict_get k [("name", VStr "a")].
Proof.
  apply (get_agent_falsy_llm_config 1 1 (world_of no_llm_db) no_llm_agent_dict
           (mkAgent 1 assistant [("name", VStr "a")] []) []);
    try reflexivity.
  discriminate.
Defined.

(** ** What seeding keeps *)

Lemma db_append_empty (d : DB) : db_append d empty_db = d.
Proof. destruct d. unfold db_append. cbn. now rewrite !app_nil_r. Qed.

(** X7: [init_db_samples] only appends: whatever the database holds, the
    rows and links it held are still there afterwards, unchanged and in the
    same places, followed by the rows and links the call added (none when
    the two sentinel workflows are present). *)
Theorem init_db_samples_appends (pdf img sys : string) (w : World) :
  exists added,
    db (snd (init_db_samples pdf img sys w)) = db_append (db w) added
    /\ (already_initialized (workflows (db w)) = true -> added = empty_db).
Proof.
  destruct (already_initialized (workflows (db w))) eqn:Hinit.
  - exists empty_db. rewrite (init_db_samples_skips pdf img sys w Hinit).
    cbn [snd db]. now rewrite db_append_empty.
  - exists (seed_of pdf img sys (db w)).
    rewrite (init_db_samples_seeds pdf img sys w Hinit).
    split; [reflexivity | discriminate].
Qed.

Lemma count_if_app {A} (p : A -> bool) (l1 l2 : list A) :
  count_if p (l1 ++ l2) = (count_if p l1 + count_if p l2)%nat.
Proof. unfold count_if. now rewrite filter_app, length_app. Qed.

(** X8: the guard is on both names together: whenever one of the two
    sentinel workflows is missing, the call adds both, so a database that
    already held one of them then holds it twice. *)
Theorem init_db_samples_adds_both (pdf img sys : string) (w : World) :
  already_initialized (workflows (db w)) = false ->
  let d' := db (snd (init_db_samples pdf img sys w)) in
  count_if (named "Default Workflow") (workflows d')
  = (count_if (named "Default Workflow") (workflows (db w)) + 1)%nat
  /\ count_if (named "Travel Planning Workflow") (workflows d')
     = (count_if (named "Travel Planning Workflow") (workflows (db w)) + 1)%nat.
Proof.
  intros Hinit. cbv zeta. rewrite (init_db_samples_seeds pdf img sys w Hinit).
  cbn [snd db db_append workflows seed_of seed_db].
  rewrite !count_if_app. split; reflexivity.
Qed.

Lemma init_db_samples_adds_both_witness :
  count_if (named "Default Workflow")
           (workflows (db (snd (init_db_samples "pdf" "images" "assistant"
                                  (world_of default_only_db)))))
  = 2%nat.
Proof.
  apply (proj1 (init_db_samples_adds_both "pdf" "images" "assistant"
                  (world_of default_only_db) eq_refl)).
Defined.

Lemma has_id_app_l {R} (rid : R -> Z) (l1 l2 : list R) (id : Z) :
  has_id rid l1 id -> has_id rid (l1 ++ l2) id.
Proof. unfold has_id. rewrite map_app. intros H. apply in_or_app. now left. Qed.

Lemma has_id_app_r {R} (rid : R -> Z) (l1 l2 : list R) (id : Z) :
  has_id rid l2 id -> has_id rid (l1 ++ l2) id.
Proof. unfold has_id. rewrite map_app. intros H. apply in_or_app. now right. Qed.

Ltac old_ids H :=
  destruct H as [?H1 ?H2]; split; apply has_id_app_l; assumption.

Ltac seed_ids H :=
  cbn [In] in H;
  repeat match type of H with
         | _ \/ _ => destruct H as [<-|H]
         | False => destruct H
         end;
  cbn [fst snd wal_workflow_id wal_agent_id];
  (split; apply has_id_app_r; unfold has_id; cbn; auto 10).

Lemma max_id_ge (ids : list Z) (x : Z) : In x ids -> x <= max_id ids.
Proof.
  induction ids as [|y ids IH]; [contradiction|].
  cbn [max_id fold_right]. fold (max_id ids).
  intros [->|Hin]; [lia | specialize (IH Hin); lia].
Qed.

Lemma row_key_below {R} (rid : R -> Z) (rows : list R) (r : R) (i : Z) :
  In r rows -> 0 < i -> rid r < max_id (map rid rows) + i.
Proof.
  intros Hin Hi. pose proof (max_id_ge (map rid rows) (rid r) (in_map rid _ _ Hin)).
  lia.
Qed.

Ltac seed_row H :=
  cbn [In] in H;
  repeat match type of H with
         | _ \/ _ => destruct H as [<-|H]
         | False => destruct H
         end.

Lemma seed_links_resolve (pdf img sys : string) (d : DB) :
  links_resolve (seed_of pdf img sys d).
Proof.
  unfold links_resolve, seed_of.
  cbn [seed_db models skills agents workflows agent_model_links
       agent_skill_links agent_links workflow_agent_links].
  split; [|split; [|split]]; intros l Hl; seed_row Hl;
    cbn [fst snd wal_workflow_id wal_agent_id];
    (split; unfold has_id; cbn; auto 10).
Qed.

Lemma seed_rows_are_new (pdf img sys : string) (d : DB) :
  rows_are_new d (seed_of pdf img sys d).
Proof.
  unfold rows_are_new, seed_of. cbn [seed_db models skills agents workflows].
  split; [|split; [|split]]; intros r r' Hr Hr'; seed_row Hr;
    cbn [model_id skill_id agent_id workflow_id];
    first [ now apply (row_key_below model_id)
          | now apply (row_key_below skill_id)
          | now apply (row_key_below agent_id)
          | now apply (row_key_below workflow_id) ].
Qed.

(** X9: seeding keeps referential integrity: if every link row of the
    database names rows that exist, so does every link row afterwards.
    When it seeds, the links the call creates name the rows it has just
    added: every link row added names rows among the rows added, and those
    rows are new (their keys are larger than every key their table held). *)
Theorem init_db_samples_links_resolve (pdf img sys : string) (w : World) :
  (links_resolve (db w) ->
   links_resolve (db (snd (init_db_samples pdf img sys w))))
  /\ (already_initialized (workflows (db w)) = false ->
      exists added,
        db (snd (init_db_samples pdf img sys w)) = db_append (db w) added
        /\ links_resolve added
        /\ rows_are_new (db w) added
        /\ agent_model_links added <> [] /\ agent_skill_links added <> []
        /\ agent_links added <> [] /\ workflow_agent_links added <> []).
Proof.
  split.
  - intros Hres.
    destruct (already_initialized (workflows (db w))) eqn:Hinit.
    { now rewrite (init_db_samples_skips pdf img sys w Hinit). }
    rewrite (init_db_samples_seeds pdf img sys w Hinit). cbn [snd db].
    destruct Hres as (Hm & Hs & Ha & Hw).
    unfold links_resolve, seed_of.
    cbn [db_append seed_db models skills agents workflows agent_model_links
         agent_skill_links agent_links workflow_agent_links].
    split; [|split; [|split]]; intros l Hl; apply in_app_or in Hl;
      destruct Hl as [Hl|Hl]; try (seed_ids Hl; fail).
    + pose proof (Hm l Hl) as H. old_ids H.
    + pose proof (Hs l Hl) as H. old_ids H.
    + pose proof (Ha l Hl) as H. old_ids H.
    + pose proof (Hw l Hl) as H. old_ids H.
  - intros Hinit. exists (seed_of pdf img sys (db w)).
    rewrite (init_db_samples_seeds pdf img sys w Hinit).
    split; [reflexivity|]. split; [apply seed_links_resolve|].
    split; [apply seed_rows_are_new|].
    repeat split; discriminate.
Qed.

Lemma two_step_links_resolve : links_resolve (two_step_db autonomous).
Proof.
  unfold links_resolve, two_step_db.
  cbn [models skills agents workflows agent_model_links agent_skill_links
       agent_links workflow_agent_links].
  split; [|split; [|split]]; intros l Hl; seed_row Hl;
    (split; unfold has_id; cbn; auto).
Qed.

(** A database with two linked agents and none of the sentinel workflows. *)
Lemma init_db_samples_links_resolve_witness :
  links_resolve (db (world_of (two_step_db autonomous)))
  /\ links_resolve
       (db (snd (init_db_samples "pdf" "images" "assistant"
                                 (world_of (two_step_db autonomous)))))
  /\ exists added,
      db (snd (init_db_samples "pdf" "images" "assistant"
                               (world_of (two_step_db autonomous))))
      = db_append (db (world_of (two_step_db autonomous))) added
      /\ links_resolve added
      /\ rows_are_new (db (world_of (two_step_db autonomous))) added
      /\ agent_model_links added <> [] /\ agent_skill_links added <> []
      /\ agent_links added <> [] /\ workflow_agent_links added <> [].
Proof.
  destruct (init_db_samples_links_resolve "pdf" "images" "assistant"
              (world_of (two_step_db autonomous))) as [H1 H2].
  split; [exact two_step_links_resolve|].
  split; [exact (H1 two_step_links_resolve) | exact (H2 eq_refl)].
Defined.


(** ** Loading the seeded workflows *)

Lemma has_id_le {R} (rid : R -> Z) (rows : list R) (id : Z) :
  has_id rid rows id -> id <= max_id (map rid rows).
Proof. apply max_id_ge. Qed.

Lemma filter_above {R} (rid : R -> Z) (rows : list R) (k : Z) :
  max_id (map rid rows) < k -> filter (fun r => rid r =? k) rows = [].
Proof.
  intros Hk. induction rows as [|r rows IH]; [reflexivity|].
  cbn [filter map max_id fold_right] in *. fold (max_id (map rid rows)) in Hk.
  destruct (Z.eqb_spec (rid r) k) as [Heq|_]; [lia|]. apply IH. lia.
Qed.

Lemma related_app {R} (l1 l2 : list (Z * Z)) (rid : R -> Z) (rows : list R)
      (p : Z) :
  related (l1 ++ l2) rid rows p
  = (related l1 rid rows p ++ related l2 rid rows p)%list.
Proof. unfold related. apply flat_map_app. Qed.

Lemma related_above {R} (links : list (Z * Z)) (rid : R -> Z) (rows : list R)
      (bound p : Z) :
  (forall l, In l links -> fst l <= bound) -> bound < p ->
  related links rid rows p = [].
Proof.
  intros Hle Hp. induction links as [|l links IH]; [reflexivity|].
  unfold related in *. cbn [flat_map].
  destruct (Z.eqb_spec (fst l) p) as [Heq|_].
  - specialize (Hle l (or_introl eq_refl)). lia.
  - apply IH. intros l' Hl'. apply Hle. now right.
Qed.

Lemma related_new_rows {R} (links : list (Z * Z)) (rid : R -> Z)
      (old new : list R) (p : Z) :
  (forall l, In l links -> max_id (map rid old) < snd l) ->
  related links rid (old ++ new) p = related links rid new p.
Proof.
  intros Hnew. induction links as [|l links IH]; [reflexivity|].
  unfold related in *. cbn [flat_map]. rewrite IH.
  - destruct (fst l =? p); [|reflexivity].
    rewrite filter_app, (filter_above rid old); [reflexivity|].
    apply Hnew. now left.
  - intros l' Hl'. apply Hnew. now right.
Qed.

Lemma add_eqb (x i j : Z) : (x + i =? x + j) = (i =? j).
Proof.
  destruct (Z.eqb_spec i j) as [->|Hne]; [apply Z.eqb_refl|].
  apply Z.eqb_neq. lia.
Qed.

Lemma forallb_agree {A} (p q : A -> bool) (l : list A) :
  (forall x, In x l -> p x = q x) -> forallb p l = forallb q l.
Proof.
  induction l as [|x l IH]; intros H; [reflexivity|].
  cbn [forallb]. rewrite (H x (or_introl eq_refl)), IH; [reflexivity|].
  intros y Hy. apply H. now right.
Qed.

Section SeededDatabase.

Variables pdf img sys : string.
Variable d : DB.
Hypothesis Hres : links_resolve d.

Abbreviation a := (max_id (map agent_id (agents d))).
Abbreviation m := (max_id (map model_id (models d))).
Abbreviation f := (max_id (map workflow_id (workflows d))).
Abbreviation seed := (seed_of pdf img sys d).
Abbreviation d' := (db_append d (seed_of pdf img sys d)).

Lemma seed_agent_ids (b : Agent) : In b (agents seed) -> a < agent_id b.
Proof.
  unfold seed_of. cbn [seed_db agents In].
  intros H.
  repeat match type of H with
         | _ \/ _ => destruct H as [<-|H]
         | False => destruct H
         end; cbn [agent_id]; lia.
Qed.

Lemma seeded_agent_rows (id : Z) :
  a < id -> agent_rows d' id = agent_rows seed id.
Proof.
  intros Hid. unfold agent_rows. cbn [db_append agents].
  now rewrite filter_app, (filter_above agent_id (agents d)).
Qed.

Lemma seeded_models_of (b : Agent) :
  a < agent_id b -> models_of d' b = models_of seed b.
Proof.
  intros Hid. unfold models_of. cbn [db_append agent_model_links models].
  rewrite related_app, (related_above (agent_model_links d) _ _ a);
    [| intros l Hl; apply has_id_le, (proj1 Hres l Hl) | exact Hid].
  cbn [app]. apply related_new_rows.
  unfold seed_of. cbn [seed_db agent_model_links In]. intros l H.
  repeat match type of H with
         | _ \/ _ => destruct H as [<-|H]
         | False => destruct H
         end; cbn [snd]; lia.
Qed.

Lemma seeded_agents_of (b : Agent) :
  a < agent_id b -> agents_of d' b = agents_of seed b.
Proof.
  intros Hid. unfold agents_of. cbn [db_append agent_links agents].
  rewrite related_app, (related_above (agent_links d) _ _ a);
    [| intros l Hl; apply has_id_le, (proj1 (proj1 (proj2 (proj2 Hres)) l Hl))
     | exact Hid].
  cbn [app]. apply related_new_rows.
  unfold seed_of. cbn [seed_db agent_links In]. intros l H.
  repeat match type of H with
         | _ \/ _ => destruct H as [<-|H]
         | False => destruct H
         end; cbn [snd]; lia.
Qed.

Lemma seeded_nests_within (n : nat) (id : Z) :
  a < id -> nests_within d' n id = nests_within seed n id.
Proof.
  revert id. induction n as [|n IH]; intros id Hid; [reflexivity|].
  cbn [nests_within]. rewrite (seeded_agent_rows id Hid).
  destruct (agent_rows seed id) as [|b rest] eqn:Hrows; [reflexivity|].
  assert (Hb : In b (agents seed)) by (eapply agent_rows_In, Hrows).
  pose proof (seed_agent_ids b Hb) as Hbid.
  unfold config_assignable.
  rewrite (seeded_models_of b Hbid), (seeded_agents_of b Hbid).
  f_equal. apply forallb_agree.
  intros c Hc. apply IH, seed_agent_ids. eapply related_In, Hc.
Qed.

Lemma seed_nests (n : nat) (i : Z) :
  In i [1; 2; 3] -> nests_within seed (S (S n)) (a + i) = true.
Proof.
  intros H. cbn [In] in H.
  repeat match type of H with
         | _ \/ _ => destruct H as [<-|H]
         | False => destruct H
         end;
    unfold seed_of;
    repeat (progress
              (cbn [nests_within agent_rows seed_db agents filter agent_id
                    model_id agent_model_links agent_links models flat_map
                    fst snd app forallb andb Z.eqb Pos.eqb];
               unfold config_assignable, models_of, agents_of, related;
               rewrite ?add_eqb));
    reflexivity.
Qed.

End SeededDatabase.

Lemma filter_none {R} (p : R -> bool) (rows : list R) :
  (forall r, In r rows -> p r = false) -> filter p rows = [].
Proof.
  induction rows as [|r rows IH]; intros H; [reflexivity|].
  cbn [filter]. rewrite (H r (or_introl eq_refl)). apply IH.
  intros r' Hr'. apply H. now right.
Qed.

Lemma seeded_links_of_workflow (pdf img sys : string) (d : DB) (i : Z) :
  links_resolve d -> 0 < i ->
  links_of_workflow (db_append d (seed_of pdf img sys d))
                    (max_id (map workflow_id (workflows d)) + i)
  = links_of_workflow (seed_of pdf img sys d)
                      (max_id (map workflow_id (workflows d)) + i).
Proof.
  intros Hres Hi. unfold links_of_workflow.
  cbn [db_append workflow_agent_links]. rewrite filter_app, filter_none;
    [reflexivity|].
  intros l Hl. apply Z.eqb_neq.
  pose proof (has_id_le _ _ _ (proj1 (proj2 (proj2 (proj2 Hres)) l Hl))). lia.
Qed.

Lemma seeded_workflow_rows (pdf img sys : string) (d : DB) (i : Z) :
  0 < i ->
  workflow_rows (db_append d (seed_of pdf img sys d))
                (max_id (map workflow_id (workflows d)) + i)
  = workflow_rows (seed_of pdf img sys d)
                  (max_id (map workflow_id (workflows d)) + i).
Proof.
  intros Hi. unfold workflow_rows. cbn [db_append workflows].
  rewrite filter_app, (filter_above workflow_id (workflows d));
    [reflexivity | lia].
Qed.

Lemma seeded_entry (pdf img sys : string) (d : DB) (ev : list event)
      (n : nat) (l : WorkflowAgentLink) (i : Z) :
  links_resolve d -> In i [1; 2; 3] ->
  wal_agent_id l = max_id (map agent_id (agents d)) + i ->
  exists e,
    agent_entry (S (S n)) l
                (mkWorld (db_append d (seed_of pdf img sys d)) empty_db ev)
    = (Ok e, mkWorld (db_append d (seed_of pdf img sys d)) empty_db ev).
Proof.
  intros Hres Hi Hl.
  destruct (agent_entry_view (S (S n)) l
              (mkWorld (db_append d (seed_of pdf img sys d)) empty_db ev))
    as (e & He & _).
  - cbn [db]. rewrite Hl, (seeded_nests_within pdf img sys d Hres).
    + now apply seed_nests.
    + cbn [In] in Hi. lia.
  - now exists e.
Qed.

(** X10: seeding and loading compose.  After [init_db_samples] has seeded
    a database that has referential integrity, the default workflow has
    exactly the links user proxy (sender) and default assistant (receiver),
    the travel workflow the links user proxy (sender) and group chat
    (receiver), and [workflow_from_id] returns for both under any recursion
    limit of at least 2. *)
Theorem seeded_workflows_load (pdf img sys : string) (w : World) (limit : nat) :
  already_initialized (workflows (db w)) = false ->
  links_resolve (db w) ->
  (2 <= limit)%nat ->
  let w' := snd (init_db_samples pdf img sys w) in
  let f := max_id (map workflow_id (workflows (db w))) in
  let a := max_id (map agent_id (agents (db w))) in
  links_of_workflow (db w') (f + 2)
  = [ mkWorkflowAgentLink (f + 2) (a + 1) "sender" 0;
      mkWorkflowAgentLink (f + 2) (a + 2) "receiver" 0 ]
  /\ links_of_workflow (db w') (f + 1)
     = [ mkWorkflowAgentLink (f + 1) (a + 1) "sender" 0;
         mkWorkflowAgentLink (f + 1) (a + 3) "receiver" 0 ]
  /\ (exists wf,
         fst (workflow_from_id limit (f + 2) w') = Ok wf
         /\ dict_get "name" wf = Some (VStr "Default Workflow"))
  /\ (exists wf,
         fst (workflow_from_id limit (f + 1) w') = Ok wf
         /\ dict_get "name" wf = Some (VStr "Travel Planning Workflow")).
Proof.
  intros Hinit Hres Hlimit. cbv zeta.
  rewrite (init_db_samples_seeds pdf img sys w Hinit). cbn [snd].
  destruct limit as [|[|n]]; [lia | lia |].
  set (ev := (events w ++ _)%list).
  assert (Hd : links_of_workflow (db_append (db w) (seed_of pdf img sys (db w)))
                 (max_id (map workflow_id (workflows (db w))) + 2)
               = [ mkWorkflowAgentLink
                     (max_id (map workflow_id (workflows (db w))) + 2)
                     (max_id (map agent_id (agents (db w))) + 1) "sender" 0;
                   mkWorkflowAgentLink
                     (max_id (map workflow_id (workflows (db w))) + 2)
                     (max_id (map agent_id (agents (db w))) + 2) "receiver" 0 ]).
  { rewrite seeded_links_of_workflow by (assumption || lia).
    unfold links_of_workflow, seed_of.
    cbn [seed_db workflow_agent_links filter wal_workflow_id].
    rewrite !add_eqb, Z.eqb_refl. reflexivity. }
  assert (Ht : links_of_workflow (db_append (db w) (seed_of pdf img sys (db w)))
                 (max_id (map workflow_id (workflows (db w))) + 1)
               = [ mkWorkflowAgentLink
                     (max_id (map workflow_id (workflows (db w))) + 1)
                     (max_id (map agent_id (agents (db w))) + 1) "sender" 0;
                   mkWorkflowAgentLink
                     (max_id (map workflow_id (workflows (db w))) + 1)
                     (max_id (map agent_id (agents (db w))) + 3) "receiver" 0 ]).
  { rewrite seeded_links_of_workflow by (assumption || lia).
    unfold links_of_workflow, seed_of.
    cbn [seed_db workflow_agent_links filter wal_workflow_id].
    rewrite !add_eqb, Z.eqb_refl. reflexivity. }
  cbn [db]. split; [exact Hd|]. split; [exact Ht|].
  split; rewrite workflow_from_id_result; cbn [db];
    rewrite seeded_workflow_rows by lia;
    unfold workflow_rows, seed_of at 1;
    cbn [seed_db workflows filter workflow_id];
    rewrite !add_eqb, ?Z.eqb_refl; cbn [Z.eqb Pos.eqb]; cbv zeta;
    rewrite ?Hd, ?Ht; cbn [mapM]; unfold bind.
  - destruct (seeded_entry pdf img sys (db w) ev n
                (mkWorkflowAgentLink
                   (max_id (map workflow_id (workflows (db w))) + 2)
                   (max_id (map agent_id (agents (db w))) + 1) "sender" 0) 1
                Hres) as [e1 He1]; [cbn; auto | reflexivity |].
    destruct (seeded_entry pdf img sys (db w) ev n
                (mkWorkflowAgentLink
                   (max_id (map workflow_id (workflows (db w))) + 2)
                   (max_id (map agent_id (agents (db w))) + 2) "receiver" 0) 2
                Hres) as [e2 He2]; [cbn; auto | reflexivity |].
    rewrite He1, He2. cbn [fst ret]. eexists. split; [reflexivity|].
    rewrite dict_get_set_other by discriminate. reflexivity.
  - destruct (seeded_entry pdf img sys (db w) ev n
                (mkWorkflowAgentLink
                   (max_id (map workflow_id (workflows (db w))) + 1)
                   (max_id (map agent_id (agents (db w))) + 1) "sender" 0) 1
                Hres) as [e1 He1]; [cbn; auto | reflexivity |].
    destruct (seeded_entry pdf img sys (db w) ev n
                (mkWorkflowAgentLink
                   (max_id (map workflow_id (workflows (db w))) + 1)
                   (max_id (map agent_id (agents (db w))) + 3) "receiver" 0) 3
                Hres) as [e2 He2]; [cbn; auto | reflexivity |].
    rewrite He1, He2. cbn [fst ret]. eexists. split; [reflexivity|].
    rewrite dict_get_set_other by discriminate. reflexivity.
Qed.

Lemma empty_db_links_resolve : links_resolve empty_db.
Proof. repeat split; contradiction. Qed.

Lemma seeded_workflows_load_witness :
  (exists wf,
      fst (workflow_from_id 2 2
             (snd (init_db_samples "pdf" "images" "assistant"
                                   (world_of empty_db)))) = Ok wf
      /\ dict_get "name" wf = Some (VStr "Default Workflow"))
  /\ (exists wf,
         fst (workflow_from_id 2 1
                (snd (init_db_samples "pdf" "images" "assistant"
                                      (world_of empty_db)))) = Ok wf
         /\ dict_get "name" wf = Some (VStr "Travel Planning Workflow")).
Proof.
  destruct (seeded_workflows_load "pdf" "images" "assistant"
              (world_of empty_db) 2 eq_refl empty_db_links_resolve
              (le_n 2)) as (_ & _ & H1 & H2).
  split; [exact H1 | exact H2].
Defined.

(** ** The calls a migration run makes *)

Section MigrationCalls.

Variable Env : Type.
Variables select ensure_version upgrade check : Env -> option exn * Env.

Abbreviation run := (run_migration Env select ensure_version upgrade check).
Abbreviation world := (MWorld Env).

Ltac migration_cases :=
  rewrite check_and_upgrade_run; cbn [env trace fst snd];
  match goal with
  | |- context [check ?e] =>
      destruct (check e) as [[?x|] ?e] eqn:?Hcheck; cbn [env trace fst snd]
  end;
  [ match goal with
    | |- context [is_command_error ?x] =>
        destruct (is_command_error x) eqn:?Hcmd; cbn [env trace fst snd]
    end;
    [ match goal with
      | |- context [upgrade ?e] =>
          destruct (upgrade e) as [[?x|] ?e] eqn:?Hupgrade';
          cbn [env trace fst snd]
      end | ]
  | ];
  rewrite final_check_run; cbn [env trace fst snd];
  match goal with
  | |- context [check ?e] =>
      destruct (check e) as [[?x|] ?e] eqn:?Hfinal; cbn [env trace fst snd]
  end;
  try match goal with
      | |- context [match ?x with CommandError => _ | _ => _ end] =>
          destruct x
      end.



(** X12: when the alembic_version query succeeds, the upgrade to head is
    attempted exactly when the first check raises CommandError or
    AutogenerateDiffsDetected, then once, followed by the 3 second sleep if
    it succeeds and by an error log line if it fails.  A first check that
    passes, or that raises anything else, leads straight to the final check:
    no upgrade, no sleep, and no log line for the exception. *)
Theorem run_migration_upgrade (w : world) :
  fst (select (env w)) = None ->
  let r := run w in
  let first_check := check (snd (select (env w))) in
  (forall x, fst first_check = Some x -> is_command_error x = true ->
     count_events mevent_is_upgrade (trace (snd r))
     = (count_events mevent_is_upgrade (trace w) + 1)%nat
     /\ (count_events mevent_is_sleep (trace (snd r))
         = count_events mevent_is_sleep (trace w)
           + match fst (upgrade (snd first_check)) with
             | Some _ => 0
             | None => 1
             end)%nat
     /\ exists t',
         trace (snd r)
         = (trace w
            ++ [ MPrint "Running migrations with engine_uri: ";
                 MSelectVersion;
                 MLog "INFO" "Alembic already initialized" None;
                 MLog "INFO" "Running DB migrations in " None;
                 MWrite "Checking migrations"; MCheck; MUpgradeHead;
                 match fst (upgrade (snd first_check)) with
                 | Some y => MLog "ERROR" "Error running migrations: " (Some y)
                 | None => MSleep 3
                 end;
                 MWrite "Checking migrations"; MCheck ] ++ t')%list)
  /\ ((forall x, fst first_check = Some x -> is_command_error x = false) ->
      count_events mevent_is_upgrade (trace (snd r))
      = count_events mevent_is_upgrade (trace w)
      /\ count_events mevent_is_sleep (trace (snd r))
         = count_events mevent_is_sleep (trace w)
      /\ exists t',
          trace (snd r)
          = (trace w
             ++ [ MPrint "Running migrations with engine_uri: ";
                  MSelectVersion;
                  MLog "INFO" "Alembic already initialized" None;
                  MLog "INFO" "Running DB migrations in " None;
                  MWrite "Checking migrations"; MCheck;
                  MWrite "Checking migrations"; MCheck ] ++ t')%list).
Proof.
  intros Hq. cbv zeta.
  rewrite run_migration_run; cbv zeta.
  rewrite check_initialized_run; cbn [env trace].
  destruct (select (env w)) as [[x|] e1]; cbn [fst snd env trace] in *;
    [discriminate Hq|].
  migration_cases;
    (split;
     [ intros ? Hx Hc; try discriminate Hx;
       try (injection Hx as <-; rewrite Hc in Hcmd; discriminate Hcmd)
     | intros Hall;
       try (rewrite (Hall _ eq_refl) in Hcmd; discriminate Hcmd) ]);
    cbn [fst snd trace env];
    rewrite <- ?app_assoc, !count_events_app; cbn [app];
    (split; [cbn; lia|]); (split; [cbn; lia|]);
    eexists; reflexivity.
Qed.

End MigrationCalls.

(** A schema that is behind is upgraded once, then sleeps. *)
Lemma run_migration_upgrade_witness :
  fst (schema_select Behind) = None
  /\ count_events mevent_is_upgrade (trace (snd (run_schema Behind))) = 1%nat
  /\ count_events mevent_is_sleep (trace (snd (run_schema Behind))) = 1%nat.
Proof.
  split; [reflexivity|].
  destruct (run_migration_upgrade schema schema_select schema_ensure_version
              schema_upgrade schema_check (mkMWorld Behind []) eq_refl)
    as [H _].
  destruct (H AutogenerateDiffsDetected eq_refl eq_refl) as (H1 & H2 & _).
  split; [exact H1 | exact H2].
Defined.

(** On the script whose checks fail with another error: no upgrade. *)
Example failing_check_no_upgrade :
  count_events mevent_is_upgrade (trace (snd (run_scripted failing_check_script)))
  = 0%nat
  /\ count_events mevent_is_error_log
       (trace (snd (run_scripted failing_check_script))) = 0%nat.
Proof. split; reflexivity. Qed.

(** ** Links that are already in order *)

Lemma insert_by_key_least (k : Z) (x : value) (l : list (Z * value)) :
  Forall (Z.le k) (map fst l) -> insert_by_key k x l = (k, x) :: l.
Proof.
  destruct l as [|[k' y] l]; [reflexivity|].
  cbn [map fst insert_by_key]. intros H. inversion H as [|? ? Hle _]; subst.
  now rewrite (proj2 (Z.leb_le k k') Hle).
Qed.

Lemma sort_keyed_sorted_input (l : list (Z * value)) :
  StronglySorted Z.le (map fst l) -> sort_keyed l = l.
Proof.
  induction l as [|[k x] l IH]; [reflexivity|].
  cbn [map fst]. intros H. apply StronglySorted_inv in H. destruct H as [Hs Hall].
  cbn [sort_keyed fold_right fst snd]. fold (sort_keyed l).
  rewrite (IH Hs). now apply insert_by_key_least.
Qed.

Lemma combine_keys_fst (links : list WorkflowAgentLink) (entries : list value) :
  Forall2 entry_shape links entries ->
  map fst (combine (map wal_sequence_id links) entries)
  = map wal_sequence_id links.
Proof.
  induction 1 as [|l e links entries _ _ IH]; [reflexivity|].
  cbn [map combine fst]. now rewrite IH.
Qed.

(** X13: when the link rows of a workflow come back in ascending order of
    [sequence_id] (as they do when all have the default 0 that seeding
    gives them), the entries of the value returned are in link-row order
    whatever the workflow's type: the sort of a sequential workflow moves
    nothing. *)
Theorem workflow_from_id_presorted (limit : nat) (workflow_id' : Z) (w : World)
        (wf : dict) :
  fst (workflow_from_id limit workflow_id' w) = Ok wf ->
  StronglySorted Z.le
    (map wal_sequence_id (links_of_workflow (db w) workflow_id')) ->
  exists entries,
    dict_get "agents" wf = Some (VList entries)
    /\ map entry_link entries
       = map link_dump (links_of_workflow (db w) workflow_id').
Proof.
  rewrite workflow_from_id_result.
  destruct (workflow_rows (db w) workflow_id') as [|w0 rest]; [discriminate|].
  cbv zeta.
  pose proof (mapM_entries_shape limit
                (links_of_workflow (db w) workflow_id') w) as Hshape.
  destruct (fst (mapM _ _ w)) as [entries|e]; [|discriminate].
  specialize (Hshape entries eq_refl).
  cbn [fst]. intros H Hsorted. apply (f_equal (result_or [])) in H.
  cbn [result_or] in H. subst wf.
  eexists. split; [apply dict_get_set_same|].
  destruct (workflow_type w0); cbn [arranged]; [now apply entries_links|].
  unfold sorted_entries. rewrite sort_keyed_sorted_input.
  - rewrite (proj1 (combine_keys _ _ Hshape)). now apply entries_links.
  - now rewrite (combine_keys_fst _ _ Hshape).
Qed.

Lemma workflow_from_id_presorted_witness :
  exists entries,
    dict_get "agents" equal_keys_result = Some (VList entries)
    /\ map entry_link entries
       = map link_dump (links_of_workflow (db (world_of equal_keys_db)) 1).
Proof.
  apply (workflow_from_id_presorted 1 1 (world_of equal_keys_db)
           equal_keys_result).
  - reflexivity.
  - cbn. repeat constructor; lia.
Defined.

(** A call on the seeded database adds nothing. *)
Lemma init_db_samples_appends_witness :
  exists added,
    db (snd (init_db_samples "pdf" "images" "assistant" seeded_world))
    = db_append (db seeded_world) added
    /\ added = empty_db.
Proof.
  destruct (init_db_samples_appends "pdf" "images" "assistant" seeded_world)
    as (added & H1 & H2).
  exists added. split; [exact H1 | apply H2; reflexivity].
Defined.
